(** * Offline cache manager of the Mainstream Tinting site (sw.js)

    A shallow embedding of the service worker: the request classification
    of the fetch listener, the three strategy handlers, and the install
    and activate listeners, over an explicit model of the browser's
    CacheStorage, network and promises. *)

From Stdlib Require Import String Ascii ZArith List Bool.
From stdpp Require Import gmap strings list fin_maps.

Open Scope string_scope.
Open Scope Z_scope.
Open Scope list_scope.

(** ** JavaScript strings

    A string is read as its sequence of code units; URL paths are ASCII
    (the URL parser percent-encodes everything else). *)

Definition chars (s : string) : list ascii := list_ascii_of_string s.

(** [s.startsWith(p)] and [s.endsWith(e)]. *)
Definition startsWith (s p : string) : bool :=
  bool_decide (chars p `prefix_of` chars s).

Definition endsWith (s e : string) : bool :=
  bool_decide (chars e `suffix_of` chars s).

(** ** Regular expressions

    The fragment of the regex syntax that sw.js uses: literal characters,
    concatenation, alternation [a|b], the greedy option [a?] and the end
    anchor [$] (no [m] flag, so [$] is the end of the input). *)

Inductive regex : Type :=
  | Chr (c : ascii)
  | Eps
  | Seq (r1 r2 : regex)
  | Alt (r1 r2 : regex)
  | Opt (r : regex)
  | EndAnchor.

Fixpoint lit (s : string) : regex :=
  match s with
  | EmptyString => Eps
  | String c s' => Seq (Chr c) (lit s')
  end.

(** Backtracking matcher: every way [r] can match a prefix of [s], as the
    list of remainders, in the order the engine tries them. *)
Fixpoint rmatch (r : regex) (s : list ascii) : list (list ascii) :=
  match r with
  | Chr c =>
      match s with
      | c' :: t => if decide (c = c') then [t] else []
      | [] => []
      end
  | Eps => [s]
  | Seq r1 r2 => rmatch r1 s ≫= rmatch r2
  | Alt r1 r2 => rmatch r1 s ++ rmatch r2 s
  | Opt r1 => rmatch r1 s ++ [s]
  | EndAnchor => match s with [] => [[]] | _ :: _ => [] end
  end.

(** An unanchored search tries every start position, left to right. *)
Fixpoint search (r : regex) (s : list ascii) : bool :=
  match rmatch r s with
  | _ :: _ => true
  | [] => match s with
          | [] => false
          | _ :: t => search r t
          end
  end.

(** [s.match(r)] for a regex without the [g] flag is an array when the
    search succeeds and [null] otherwise; sw.js only tests the result for
    truthiness, which is what this returns. *)
Definition String_match (s : string) (r : regex) : bool := search r (chars s).

(** [/\.(css|js|woff2?|ttf)$/] *)
Definition static_asset_re : regex :=
  Seq (Seq (Chr ".")
           (Alt (lit "css")
           (Alt (lit "js")
           (Alt (Seq (lit "woff") (Opt (Chr "2")))
                (lit "ttf")))))
      EndAnchor.

(** [/\.(jpg|jpeg|png|gif|webp|svg|ico|mp4)$/] *)
Definition media_re : regex :=
  Seq (Seq (Chr ".")
           (Alt (lit "jpg")
           (Alt (lit "jpeg")
           (Alt (lit "png")
           (Alt (lit "gif")
           (Alt (lit "webp")
           (Alt (lit "svg")
           (Alt (lit "ico")
                (lit "mp4")))))))))
      EndAnchor.

(** ** Requests and responses *)

(** A parsed absolute URL. For the http(s) URLs a page requests (without
    credentials) the serialisation is origin, path, query; the fragment
    takes no part in cache matching and is left out. *)
Record URL : Type := mkURL {
  origin : string;
  pathname : string;
  search_part : string
}.

Definition href (u : URL) : string :=
  origin u +:+ pathname u +:+ search_part u.

(** The fields of a [Request] that sw.js reads. [request_url] is the
    parsed form of [request.url]: [url r] is the string the script sees
    and [new URL(request.url)] gives [request_url r] back. *)
Record Request : Type := mkRequest {
  method : string;
  request_url : URL;
  mode : string
}.

Definition url (r : Request) : string := href (request_url r).

Record Response : Type := mkResponse {
  status : Z;
  contentType : string;
  body : string
}.

Definition clone (r : Response) : Response := r.

(** ** Constants of sw.js *)

Definition CACHE_NAME : string := "mainstream-tinting-v1.2".
Definition OFFLINE_PAGE : string := "/offline.html".

Module CACHE_STRATEGY.
Definition CACHE_FIRST : string := "cache-first".
Definition NETWORK_FIRST : string := "network-first".
Definition STALE_WHILE_REVALIDATE : string := "stale-while-revalidate".
End CACHE_STRATEGY.

Definition CACHE_FILES : list string :=
  [ "/"; "/index.html"; "/residential.html"; "/commercial.html";
    "/gallery.html"; "/technology.html"; "/about.html";
    "/areas-we-serve.html"; "/removal.html"; "/style.css"; "/main.js";
    "/m-logo-new.webp"; "/m-logo-new.png"; "/favicon-96x96.png";
    "/favicon.svg"; "/favicon.ico"; "/site.webmanifest"; "/robots.txt" ].

(** ** Classification (fetch listener, the [let strategy] block) *)

Definition classify (u : URL) : string :=
  if endsWith (pathname u) ".html" then CACHE_STRATEGY.NETWORK_FIRST
  else if String_match (pathname u) static_asset_re then CACHE_STRATEGY.CACHE_FIRST
  else if String_match (pathname u) media_re then CACHE_STRATEGY.CACHE_FIRST
  else CACHE_STRATEGY.STALE_WHILE_REVALIDATE.


(** ** Promises and the worker's world *)

(** The final state of a promise. [Pending] stands for a promise that
    never settles (a request that hangs). *)
Inductive promise (A : Type) : Type :=
  | Fulfilled (a : A)
  | Rejected (reason : string)
  | Pending.
Arguments Fulfilled {A} a.
Arguments Rejected {A} reason.
Arguments Pending {A}.

(** What a handler can resolve to: a [Response] object or [undefined]. *)
Inductive jsval : Type :=
  | JUndefined
  | JResponse (r : Response).

(** An operand of [||]: a settled value or a promise object. *)
Inductive operand : Type :=
  | OValue (v : jsval)
  | OPromise (p : promise jsval).

(** JavaScript truthiness: [undefined] is falsy, every object is truthy,
    and a promise is an object whatever it settles to. *)
Definition truthy (o : operand) : bool :=
  match o with
  | OValue JUndefined => false
  | OValue (JResponse _) => true
  | OPromise _ => true
  end.

(** CacheStorage maps a bucket name to a bucket; a bucket maps the URL of
    a GET request to the stored response. The other fields record what
    the worker did: the network requests it issued (latest first), the
    console lines (latest first), and the two lifecycle calls. *)
Record World : Type := mkWorld {
  caches : gmap string (gmap string Response);
  fetched : list string;
  console : list string;
  skipWaitingCalled : bool;
  clientsClaimed : bool
}.

Definition set_caches (f : gmap string (gmap string Response) → gmap string (gmap string Response))
    (w : World) : World :=
  mkWorld (f (caches w)) (fetched w) (console w) (skipWaitingCalled w) (clientsClaimed w).

Definition add_fetched (u : string) (w : World) : World :=
  mkWorld (caches w) (u :: fetched w) (console w) (skipWaitingCalled w) (clientsClaimed w).

Definition add_console (line : string) (w : World) : World :=
  mkWorld (caches w) (fetched w) (line :: console w) (skipWaitingCalled w) (clientsClaimed w).

Definition set_skipWaiting (w : World) : World :=
  mkWorld (caches w) (fetched w) (console w) true (clientsClaimed w).

Definition set_claimed (w : World) : World :=
  mkWorld (caches w) (fetched w) (console w) (skipWaitingCalled w) true.

(** The network: how the fetch of a URL ends. *)
Definition Network : Type := string → promise Response.

(** An asynchronous computation: run to its end from a world, it leaves
    the promise it returned in its final state and the world it made. *)
Definition Async (A : Type) : Type := World → promise A * World.

Module AsyncNotations.
Declare Scope async_scope.
Delimit Scope async_scope with async.
End AsyncNotations.
Import AsyncNotations.

Definition ret {A} (a : A) : Async A := fun w => (Fulfilled a, w).

Definition throw {A} (reason : string) : Async A := fun w => (Rejected reason, w).

(** [await m] followed by [k]; also [m.then(k)]. *)
Definition bind {A B} (m : Async A) (k : A → Async B) : Async B :=
  fun w =>
    match m w with
    | (Fulfilled a, w') => k a w'
    | (Rejected e, w') => (Rejected e, w')
    | (Pending, w') => (Pending, w')
    end.

Notation "x <- m ;; k" := (bind m (fun x => k))
  (at level 100, m at next level, right associativity) : async_scope.
Notation "m ;; k" := (bind m (fun _ => k))
  (at level 100, right associativity) : async_scope.

(** [try { m } catch (error) { h error }]; also [m.catch(h)]. *)
Definition try_catch {A} (m : Async A) (h : string → Async A) : Async A :=
  fun w =>
    match m w with
    | (Rejected e, w') => h e w'
    | r => r
    end.

(** Starting [m] without awaiting it: its effects happen, and the caller
    holds the promise. *)
Definition spawn {A} (m : Async A) : Async (promise A) :=
  fun w => let (p, w') := m w in (Fulfilled p, w').

(** [await p] on a promise already held. *)
Definition await {A} (p : promise A) : Async A := fun w => (p, w).

(** [a || b]: [b] is evaluated only when [a] is falsy. *)
Definition js_or (a b : Async operand) : Async operand :=
  (x <- a ;; if truthy x then ret x else b)%async.

(** [return e] in an async function: a promise operand is adopted. *)
Definition async_return (e : Async operand) : Async jsval :=
  (o <- e ;;
   match o with
   | OValue v => ret v
   | OPromise p => await p
   end)%async.

Definition console_log (line : string) : Async unit :=
  fun w => (Fulfilled tt, add_console line w).

(** ** Browser interfaces used by sw.js *)

Definition lookup_bucket (cache key : string) (w : World) : option Response :=
  caches w !! cache ≫= (λ bucket, bucket !! key).

(** [caches.open(name)] creates the bucket when it is absent; the handle
    it resolves to is the bucket's name. *)
Definition caches_open (name : string) : Async string :=
  fun w =>
    (Fulfilled name,
     match caches w !! name with
     | Some _ => w
     | None => set_caches (insert name ∅) w
     end).

(** [cache.match(key)]: the stored response or [undefined]. *)
Definition cache_match (cache key : string) : Async jsval :=
  fun w =>
    (Fulfilled (match lookup_bucket cache key w with
                | Some r => JResponse r
                | None => JUndefined
                end), w).

(** [cache.put(key, response)]: the last write for a key wins. *)
Definition cache_put (cache key : string) (r : Response) : Async unit :=
  fun w =>
    (Fulfilled tt,
     set_caches (λ cs, <[cache := <[key := r]> (default ∅ (cs !! cache))]> cs) w).

(** [caches.keys()] *)
Definition caches_keys : Async (list string) :=
  fun w => (Fulfilled (map_to_list (caches w)).*1, w).

(** [caches.delete(name)] resolves to whether the bucket existed. *)
Definition caches_delete (name : string) : Async bool :=
  fun w =>
    (Fulfilled (bool_decide (is_Some (caches w !! name))),
     set_caches (delete name) w).

Definition skipWaiting : Async unit := fun w => (Fulfilled tt, set_skipWaiting w).
Definition clients_claim : Async unit := fun w => (Fulfilled tt, set_claimed w).

(** [Promise.all]: rejected as soon as one member is, pending while one
    member is and none is rejected, fulfilled otherwise. *)
Fixpoint all_settled {A} (ps : list (promise A)) : promise (list A) :=
  match ps with
  | [] => Fulfilled []
  | p :: rest =>
      match p, all_settled rest with
      | Rejected e, _ => Rejected e
      | _, Rejected e => Rejected e
      | Pending, _ => Pending
      | _, Pending => Pending
      | Fulfilled a, Fulfilled l => Fulfilled (a :: l)
      end
  end.

(** The members of the array are started in order. *)
Fixpoint spawn_each {A} (ms : list (Async A)) : Async (list (promise A)) :=
  match ms with
  | [] => ret []
  | m :: rest =>
      (p <- spawn m ;; ps <- spawn_each rest ;; ret (p :: ps))%async
  end.

Definition Promise_all {A} (ms : list (Async A)) : Async (list A) :=
  (ps <- spawn_each ms ;; await (all_settled ps))%async.

(** ** The worker *)

Section Worker.

(** [self.location.origin] and the network the worker talks to. *)
Variable self_origin : string.
Variable net : Network.

(** [fetch(request)] *)
Definition fetch (u : string) : Async Response :=
  fun w => (net u, add_fetched u w).

(** A string handed to the Cache API is parsed against the worker's
    own URL; the strings of sw.js are all path-absolute. *)
Definition resolve (path : string) : string := self_origin +:+ path.

(** [response.ok] *)
Definition ok (r : Response) : bool := (200 <=? status r) && (status r <=? 299).

(** What [cache.addAll] accepts: a response with an ok status that is
    not a 206 (a partial response is refused like an error). The
    responses of this model carry no [Vary] header. *)
Definition storable (r : Response) : bool := ok r && negb (status r =? 206).

(** [cache.addAll(paths)]: every URL is requested; the batch is stored
    only when every request resolved with a response it accepts. *)
Definition cache_addAll (cache : string) (paths : list string) : Async unit :=
  (rs <- Promise_all
           (map (fun path =>
                   r <- fetch (resolve path) ;;
                   if storable r then ret (resolve path, r) else throw "TypeError")
                paths) ;;
   fun w =>
     (Fulfilled tt,
      set_caches (λ cs,
        <[cache := foldl (λ b kr, <[kr.1 := kr.2]> b) (default ∅ (cs !! cache)) rs]> cs) w))%async.

(** *** install *)

(** The promise handed to [event.waitUntil]. *)
Definition onInstall : Async unit :=
  (console_log "Service Worker: Installing..." ;;
   try_catch
     (cache <- caches_open CACHE_NAME ;;
      console_log "Service Worker: Caching essential files" ;;
      cache_addAll cache CACHE_FILES ;;
      console_log "Service Worker: Installation complete" ;;
      skipWaiting)
     (fun error => console_log "Service Worker: Installation failed"))%async.

(** *** activate *)

(** The callback of [cacheNames.map]: the promise of the deletion for an
    old bucket, [undefined] for the current one. *)
Definition delete_if_old (cacheName : string) : Async (option bool) :=
  if negb (String.eqb cacheName CACHE_NAME) then
    (console_log ("Service Worker: Deleting old cache " +:+ cacheName) ;;
     deleted <- caches_delete cacheName ;;
     ret (Some deleted))%async
  else ret None.

Definition onActivate : Async unit :=
  (console_log "Service Worker: Activating..." ;;
   cacheNames <- caches_keys ;;
   Promise_all (map delete_if_old cacheNames) ;;
   console_log "Service Worker: Activation complete" ;;
   clients_claim)%async.

(** *** The strategy handlers *)

(** The body of the [catch] block, the same text in the three
    handlers. *)
Definition offline_fallback (request : Request) (cache : string) : Async jsval :=
  if String.eqb (mode request) "navigate" then
    async_return
      (js_or
         (js_or (p <- spawn (cache_match cache (resolve OFFLINE_PAGE)) ;; ret (OPromise p))
                (p <- spawn (cache_match cache (resolve "/index.html")) ;; ret (OPromise p)))
         (ret (OValue (JResponse
            (mkResponse 200 "text/html" "Offline - Please check your connection")))))%async
  else
    ret (JResponse (mkResponse 408 "text/plain" "Network error")).

(** [if (response.status === 200) cache.put(request, response.clone())];
    the put is not awaited. The world a handler returns is the one in
    which the put it started has landed; the promise of the handler may
    resolve before that, see [before_puts]. *)
Definition put_if_200 (request : Request) (cache : string) (response : Response)
    : Async unit :=
  if status response =? 200 then
    (_ <- spawn (cache_put cache (url request) (clone response)) ;; ret tt)%async
  else ret tt.

Definition handleCacheFirst (request : Request) (cache : string) : Async jsval :=
  (cached <- cache_match cache (url request) ;;
   if truthy (OValue cached) then ret cached
   else
     try_catch
       (response <- fetch (url request) ;;
        put_if_200 request cache response ;;
        ret (JResponse response))
       (fun error => offline_fallback request cache))%async.

Definition handleNetworkFirst (request : Request) (cache : string) : Async jsval :=
  try_catch
    (response <- fetch (url request) ;;
     put_if_200 request cache response ;;
     ret (JResponse response))%async
    (fun error =>
       cached <- cache_match cache (url request) ;;
       if truthy (OValue cached) then ret cached
       else offline_fallback request cache)%async.

Definition handleStaleWhileRevalidate (request : Request) (cache : string)
    : Async jsval :=
  (cached <- cache_match cache (url request) ;;
   fetchPromise <-
     spawn (try_catch
              (response <- fetch (url request) ;;
               put_if_200 request cache response ;;
               ret (JResponse response))
              (fun _ => ret JUndefined)) ;;
   if truthy (OValue cached) then ret cached
   else
     try_catch (await fetchPromise)
               (fun error => offline_fallback request cache))%async.

Definition handleRequest (request : Request) (strategy : string) : Async jsval :=
  (cache <- caches_open CACHE_NAME ;;
   if String.eqb strategy CACHE_STRATEGY.CACHE_FIRST then
     handleCacheFirst request cache
   else if String.eqb strategy CACHE_STRATEGY.NETWORK_FIRST then
     handleNetworkFirst request cache
   else
     handleStaleWhileRevalidate request cache)%async.

(** *** fetch

    [None] when the listener returns without calling
    [event.respondWith] (the browser then handles the request itself),
    [Some h] when it responds with the promise of [h]. *)
Definition onFetch (request : Request) : option (Async jsval) :=
  if negb (String.eqb (method request) "GET") then None
  else if negb (startsWith (url request) self_origin) then None
  else Some (handleRequest request (classify (request_url request))).

End Worker.

(** What the browser makes of the promise given to [waitUntil] during
    install: a rejection makes the new worker redundant, a fulfilment
    makes it installed (and then activated). *)
Inductive worker_state : Type := Installing | Installed | Redundant.

Definition install_outcome (p : promise unit) : worker_state :=
  match p with
  | Fulfilled _ => Installed
  | Rejected _ => Redundant
  | Pending => Installing
  end.

(** Buckets that carry the app's naming prefix. *)
Definition APP_PREFIX : string := "mainstream-tinting-".

Definition app_buckets (w : World) : list string :=
  filter (λ name, startsWith name APP_PREFIX = true) (map_to_list (caches w)).*1.


(** The fetch event as the browser sees it: the settled response and the
    world after it, or [None] when the request was left to the browser. *)
Definition fetch_event (self_origin : string) (net : Network) (request : Request)
    (w : World) : option (promise jsval * World) :=
  (λ h : Async jsval, h w) <$> onFetch self_origin net request.

(** ** The other listeners *)

(** [handleOfflineFormSubmissions]: the body of the [try] only logs. *)
Definition handleOfflineFormSubmissions : Async unit :=
  try_catch
    (console_log "Service Worker: Processing offline form submissions")
    (fun error => console_log "Service Worker: Error processing offline forms").

(** The sync listener: the promise given to [event.waitUntil], or [None]
    for a tag it does not handle. *)
Definition onSync (tag : string) : option (Async unit) :=
  if String.eqb tag "contact-form-sync" then Some handleOfflineFormSubmissions
  else None.

(** The JSON payload of a push message, read at the fields the listener
    uses: [title] and [body] are strings, [url] is a string or absent. *)
Record PushData : Type := mkPushData {
  push_title : string;
  push_body : string;
  push_url : option string
}.

(** The [options] object built by the push listener; [data_url] is
    [options.data.url]. *)
Record NotificationOptions : Type := mkNotificationOptions {
  body_text : string;
  icon : string;
  badge : string;
  vibrate : list Z;
  data_url : option string
}.

(** [v || d] for [v] a string or [undefined]: the empty string is falsy
    like [undefined]. *)
Definition string_or (v : option string) (d : string) : string :=
  match v with
  | Some s => if String.eqb s "" then d else s
  | None => d
  end.

(** The push listener: the arguments of [showNotification], or [None]
    when [event.data] is null and nothing is shown. *)
Definition onPush (event_data : option PushData)
    : option (string * NotificationOptions) :=
  match event_data with
  | Some data =>
      Some (push_title data,
            mkNotificationOptions (push_body data) "/favicon-96x96.png"
              "/favicon-96x96.png" [200; 100; 200]
              (Some (string_or (push_url data) "/")))
  | None => None
  end.

(** The notificationclick listener: the URL given to
    [clients.openWindow] (the notification is closed first). *)
Definition onNotificationClick (notification : NotificationOptions) : string :=
  string_or (data_url notification) "/".

(** ** Scenarios used by the examples below *)

Module Scenario.

Definition app_origin : string := "https://example.com".

(** A network that serves every URL with a 200 whose body is the URL. *)
Definition online : Network := fun u => Fulfilled (mkResponse 200 "text/plain" u).
(** No connectivity: every fetch rejects. *)
Definition offline : Network := fun _ => Rejected "TypeError: Failed to fetch".
(** A network that never answers. *)
Definition hanging : Network := fun _ => Pending.
(** Every URL is a 404. *)
Definition missing : Network := fun u => Fulfilled (mkResponse 404 "text/plain" "Not Found").
(** The stylesheet of the manifest is a 404, everything else is served. *)
Definition broken_deploy : Network :=
  fun u => if String.eqb u "https://example.com/style.css"
           then Fulfilled (mkResponse 404 "text/plain" "Not Found")
           else online u.

Definition fresh : World := mkWorld ∅ [] [] false false.

(** The world after a successful install and activation. *)
Definition installed : World :=
  (onActivate (onInstall app_origin online fresh).2).2.

Definition get (path mode : string) : Request :=
  mkRequest "GET" (mkURL app_origin path "") mode.

(** Storage left behind by the previous version only. *)
Definition old_only : World :=
  mkWorld {[ "mainstream-tinting-v1.1" := ∅ ]} [] [] false false.

(** Storage with the previous and the current version's buckets. *)
Definition old_and_current : World :=
  mkWorld {[ "mainstream-tinting-v1.1" := ∅; CACHE_NAME := ∅ ]} [] [] false false.

(** A script served by a host whose name extends the app's host name,
    requested with CORS (a script element with the crossorigin
    attribute), so that the worker sees the status of the response. *)
Definition foreign_script : Request :=
  mkRequest "GET" (mkURL "https://example.com.cdn.net" "/main.js" "") "cors".

End Scenario.

(** ** Vocabulary of the statements *)

Fixpoint anchor_free (r : regex) : bool :=
  match r with
  | Chr _ | Eps => true
  | Seq r1 r2 | Alt r1 r2 => anchor_free r1 && anchor_free r2
  | Opt r1 => anchor_free r1
  | EndAnchor => false
  end.

(** The words of an anchor-free regex of this fragment. *)
Fixpoint lang (r : regex) : list (list ascii) :=
  match r with
  | Chr c => [[c]]
  | Eps => [[]]
  | Seq r1 r2 => w1 ← lang r1; w2 ← lang r2; [w1 ++ w2]
  | Alt r1 r2 => lang r1 ++ lang r2
  | Opt r1 => lang r1 ++ [[]]
  | EndAnchor => []
  end.

(** One step of the purge: what the callback of [cacheNames.map] does to
    CacheStorage for one name. *)
Definition purge_step (cs : gmap string (gmap string Response)) (name : string)
    : gmap string (gmap string Response) :=
  if String.eqb name CACHE_NAME then cs else delete name cs.

(** [m] keeps the property [P] of the world. *)
Definition preserves {A} (P : World → Prop) (m : Async A) : Prop :=
  ∀ w, P w → P (m w).2.

(** The current bucket exists. *)
Definition has_current_bucket (w : World) : Prop :=
  is_Some (caches w !! CACHE_NAME).

(** The promise of one member of the [cache.addAll] batch: the fetch of
    the URL, rejected also when the response is not one it accepts. *)
Definition precache_outcome (self_origin : string) (net : Network) (path : string)
    : promise (string * Response) :=
  match net (resolve self_origin path) with
  | Fulfilled r =>
      if storable r then Fulfilled (resolve self_origin path, r)
      else Rejected "TypeError"
  | Rejected e => Rejected e
  | Pending => Pending
  end.

(** A bucket after a batch of puts. *)
Definition put_batch (bucket : gmap string Response) (rs : list (string * Response))
    : gmap string Response :=
  foldl (λ b kr, <[kr.1 := kr.2]> b) bucket rs.

(** The world after a handler has answered from the network: the request
    is logged, and a 200 is stored under the request's URL. *)
Definition after_fetch (request : Request) (cache : string) (response : Response)
    (w : World) : World :=
  if status response =? 200
  then (cache_put cache (url request) response (add_fetched (url request) w)).2
  else add_fetched (url request) w.

(** The world a next call starts from when the promise of a call has
    resolved but the [cache.put] it started has not landed yet:
    everything the call did as in [settled], with CacheStorage still as
    [w] had it before the call. *)
Definition before_puts (w settled : World) : World :=
  set_caches (λ _, caches w) settled.

(** * Properties *)

(** ** Strings and regular expressions *)

Lemma rmatch_lang (r : regex) :
  anchor_free r = true →
  ∀ s t, t ∈ rmatch r s ↔ ∃ w, w ∈ lang r ∧ s = w ++ t.
Proof.
  induction r as [c| |r1 IH1 r2 IH2|r1 IH1 r2 IH2|r1 IH1|]; simpl; intros Hfree s t.
  - destruct s as [|c' s'].
    + split; [intros H; inversion H|].
      intros (w & Hw & Hs). apply list_elem_of_singleton in Hw. subst w. discriminate.
    + destruct (decide (c = c')) as [->|Hne].
      * rewrite list_elem_of_singleton. split.
        -- intros ->. exists [c']. split; [apply list_elem_of_singleton; reflexivity|reflexivity].
        -- intros (w & Hw & Hs). apply list_elem_of_singleton in Hw. subst w.
           simpl in Hs. congruence.
      * split; [intros H; inversion H|].
        intros (w & Hw & Hs). apply list_elem_of_singleton in Hw. subst w.
        simpl in Hs. congruence.
  - rewrite list_elem_of_singleton. split.
    + intros ->. exists []. split; [apply list_elem_of_singleton; reflexivity|reflexivity].
    + intros (w & Hw & Hs). apply list_elem_of_singleton in Hw. subst w. symmetry. exact Hs.
  - apply andb_true_iff in Hfree as [H1 H2].
    rewrite list_elem_of_bind. split.
    + intros (m & Ht & Hm). apply (IH1 H1) in Hm as (w1 & Hw1 & ->).
      apply (IH2 H2) in Ht as (w2 & Hw2 & ->).
      exists (w1 ++ w2). split; [|by rewrite app_assoc].
      apply list_elem_of_bind. exists w1. split; [|done].
      apply list_elem_of_bind. exists w2. split; [|done].
      apply list_elem_of_singleton. reflexivity.
    + intros (w & Hw & ->).
      apply list_elem_of_bind in Hw as (w1 & Hw & Hw1).
      apply list_elem_of_bind in Hw as (w2 & Hw & Hw2).
      apply list_elem_of_singleton in Hw. subst w.
      exists (w2 ++ t). split.
      * apply (IH2 H2). eauto.
      * apply (IH1 H1). exists w1. by rewrite app_assoc.
  - apply andb_true_iff in Hfree as [H1 H2].
    rewrite elem_of_app, (IH1 H1), (IH2 H2). split.
    + intros [(w & Hw & ->)|(w & Hw & ->)]; exists w; rewrite elem_of_app; auto.
    + intros (w & Hw & ->). apply elem_of_app in Hw as [Hw|Hw]; eauto.
  - rewrite elem_of_app, (IH1 Hfree), list_elem_of_singleton. split.
    + intros [(w & Hw & ->)| ->].
      * exists w. rewrite elem_of_app. auto.
      * exists []. rewrite elem_of_app, list_elem_of_singleton. auto.
    + intros (w & Hw & ->). apply elem_of_app in Hw as [Hw|Hw]; [eauto|].
      apply list_elem_of_singleton in Hw. subst w. auto.
  - discriminate.
Qed.

Lemma rmatch_end_anchored (r : regex) (s t : list ascii) :
  anchor_free r = true →
  t ∈ rmatch (Seq r EndAnchor) s ↔ t = [] ∧ s ∈ lang r.
Proof.
  intros Hfree.
  change (rmatch (Seq r EndAnchor) s) with (rmatch r s ≫= rmatch EndAnchor).
  rewrite list_elem_of_bind. split.
  - intros (m & Ht & Hm).
    apply (rmatch_lang r Hfree) in Hm as (w & Hw & ->).
    destruct m; simpl in Ht; [|inversion Ht].
    apply list_elem_of_singleton in Ht. by rewrite app_nil_r.
  - intros [-> Hs]. exists []. split; [by apply list_elem_of_singleton|].
    apply (rmatch_lang r Hfree). exists s. by rewrite app_nil_r.
Qed.

(** A search for [r$] succeeds exactly on the inputs that end in a word
    of [r]. *)
Lemma search_end_anchored (r : regex) (s : list ascii) :
  anchor_free r = true →
  search (Seq r EndAnchor) s = true ↔ ∃ w, w ∈ lang r ∧ w `suffix_of` s.
Proof.
  intros Hfree.
  assert (Hhere : ∀ s0, rmatch (Seq r EndAnchor) s0 ≠ [] ↔ s0 ∈ lang r).
  { intros s0. split.
    - intros Hne.
      destruct (rmatch (Seq r EndAnchor) s0) as [|t l] eqn:E; [done|].
      assert (Ht : t ∈ rmatch (Seq r EndAnchor) s0) by (rewrite E; left).
      by apply rmatch_end_anchored in Ht as [_ ?].
    - intros Hin Hnil.
      assert (Ht : [] ∈ rmatch (Seq r EndAnchor) s0)
        by (by apply rmatch_end_anchored).
      rewrite Hnil in Ht. inversion Ht. }
  induction s as [|c s IH].
  - cbn [search]. destruct (rmatch (Seq r EndAnchor) []) eqn:E.
    + split; [done|]. intros (w & Hw & Hsuf).
      apply suffix_nil_inv in Hsuf. subst w.
      apply Hhere in Hw. done.
    + split; [|done]. intros _. exists []. split; [|done].
      apply Hhere. by rewrite E.
  - cbn [search]. destruct (rmatch (Seq r EndAnchor) (c :: s)) eqn:E.
    + rewrite IH. split.
      * intros (w & Hw & Hsuf). exists w. split; [done|]. by apply suffix_cons_r.
      * intros (w & Hw & Hsuf). exists w. split; [done|].
        destruct w as [|x w']; [apply suffix_nil|].
        apply suffix_cons_inv in Hsuf as [Heq|Hsuf]; [|done].
        rewrite Heq in Hw. apply Hhere in Hw. done.
    + split; [|done]. intros _. exists (c :: s). split; [|done].
      apply Hhere. by rewrite E.
Qed.

(** In terms of [endsWith]: when the words of [r] are the given
    extensions, [path.match(/r$/)] is truthy exactly when the path ends
    in one of them. *)
Lemma String_match_extensions (r : regex) (exts : list string) (path : string) :
  anchor_free r = true →
  (∀ w, w ∈ lang r ↔ w ∈ chars <$> exts) →
  String_match path (Seq r EndAnchor) = existsb (endsWith path) exts.
Proof.
  intros Hfree Hlang. apply eq_true_iff_eq.
  unfold String_match. rewrite search_end_anchored by done.
  rewrite existsb_exists. split.
  - intros (w & Hw & Hsuf). apply Hlang in Hw.
    apply list_elem_of_fmap in Hw as (e & -> & He).
    exists e. split; [by apply list_elem_of_In|].
    unfold endsWith. by apply bool_decide_eq_true.
  - intros (e & He & Hends). exists (chars e). split.
    + apply Hlang. apply list_elem_of_fmap. exists e. split; [done|].
      by apply list_elem_of_In.
    + unfold endsWith in Hends. by apply bool_decide_eq_true in Hends.
Qed.

Lemma static_asset_re_extensions (path : string) :
  String_match path static_asset_re =
  existsb (endsWith path) [".css"; ".js"; ".woff"; ".woff2"; ".ttf"].
Proof.
  apply String_match_extensions; [reflexivity|].
  intros w. vm_compute lang. vm_compute fmap.
  rewrite !elem_of_cons. rewrite !elem_of_nil. tauto.
Qed.

Lemma media_re_extensions (path : string) :
  String_match path media_re =
  existsb (endsWith path)
    [".jpg"; ".jpeg"; ".png"; ".gif"; ".webp"; ".svg"; ".ico"; ".mp4"].
Proof.
  apply String_match_extensions; [reflexivity|].
  intros w. vm_compute lang. vm_compute fmap.
  rewrite !elem_of_cons. rewrite !elem_of_nil. tauto.
Qed.

(** ** Classification *)

(** C1 (as amended). The strategy is a function of the request's path
    alone: [NETWORK_FIRST] when the path ends in [.html]; [CACHE_FIRST]
    when it ends in [.css], [.js], [.woff], [.woff2] or [.ttf], or in
    [.jpg], [.jpeg], [.png], [.gif], [.webp], [.svg], [.ico] or [.mp4];
    [STALE_WHILE_REVALIDATE] for every other path, whatever the mode of
    the request. *)
Theorem classify_by_extension (u : URL) :
  classify u =
    if endsWith (pathname u) ".html" then CACHE_STRATEGY.NETWORK_FIRST
    else if existsb (endsWith (pathname u))
              [".css"; ".js"; ".woff"; ".woff2"; ".ttf"]
         then CACHE_STRATEGY.CACHE_FIRST
    else if existsb (endsWith (pathname u))
              [".jpg"; ".jpeg"; ".png"; ".gif"; ".webp"; ".svg"; ".ico"; ".mp4"]
         then CACHE_STRATEGY.CACHE_FIRST
    else CACHE_STRATEGY.STALE_WHILE_REVALIDATE.
Proof.
  unfold classify.
  by rewrite static_asset_re_extensions, media_re_extensions.
Qed.

Example classify_page : classify (mkURL "https://example.com" "/about.html" "") = "network-first".
Proof. reflexivity. Qed.

Example classify_font : classify (mkURL "https://example.com" "/fonts/inter.woff2" "") = "cache-first".
Proof. reflexivity. Qed.

Example classify_image_with_query :
  classify (mkURL "https://example.com" "/m-logo-new.webp" "?v=2") = "cache-first".
Proof. reflexivity. Qed.

Example classify_manifest :
  classify (mkURL "https://example.com" "/site.webmanifest" "") = "stale-while-revalidate".
Proof. reflexivity. Qed.

(** C1, the counterexample: a navigation to the bare root path is a GET
    for the app's own origin, and it is classified
    [STALE_WHILE_REVALIDATE], not [NETWORK_FIRST]. *)
Lemma bare_navigation_is_stale_while_revalidate :
  let request := Scenario.get "/" "navigate" in
  mode request = "navigate" ∧
  pathname (request_url request) = "/" ∧
  classify (request_url request) = CACHE_STRATEGY.STALE_WHILE_REVALIDATE ∧
  classify (request_url request) ≠ CACHE_STRATEGY.NETWORK_FIRST.
Proof. repeat split. vm_compute. discriminate. Qed.

(** ** Running asynchronous code *)

Create HintDb async discriminated.
#[local] Hint Unfold bind ret throw try_catch spawn await js_or async_return
  console_log fetch put_if_200 cache_put cache_match : async.

Ltac run_async := autounfold with async; simpl.

Lemma cache_match_hit (cache key : string) (w : World) (r : Response) :
  lookup_bucket cache key w = Some r →
  cache_match cache key w = (Fulfilled (JResponse r), w).
Proof. intros H. unfold cache_match. by rewrite H. Qed.

Lemma cache_match_miss (cache key : string) (w : World) :
  lookup_bucket cache key w = None →
  cache_match cache key w = (Fulfilled JUndefined, w).
Proof. intros H. unfold cache_match. by rewrite H. Qed.

Lemma lookup_bucket_put (cache key : string) (r : Response) (w : World) :
  lookup_bucket cache key (cache_put cache key r w).2 = Some r.
Proof.
  unfold lookup_bucket, cache_put, set_caches. simpl.
  rewrite lookup_insert_eq. simpl. apply lookup_insert_eq.
Qed.

Lemma lookup_bucket_add_fetched (cache key u : string) (w : World) :
  lookup_bucket cache key (add_fetched u w) = lookup_bucket cache key w.
Proof. reflexivity. Qed.

(** What the [catch] block resolves to. For a navigation it is whatever
    the lookup of the offline page settles to: the promise returned by
    [cache.match(OFFLINE_PAGE)] is an object, so the [||] chain stops at
    it. *)
Lemma offline_fallback_navigate (self_origin : string) (request : Request)
    (cache : string) (w : World) :
  mode request = "navigate" →
  offline_fallback self_origin request cache w =
    (Fulfilled (match lookup_bucket cache (resolve self_origin OFFLINE_PAGE) w with
                | Some r => JResponse r
                | None => JUndefined
                end), w).
Proof. intros Hnav. unfold offline_fallback. rewrite Hnav. reflexivity. Qed.

Lemma offline_fallback_subresource (self_origin : string) (request : Request)
    (cache : string) (w : World) :
  mode request ≠ "navigate" →
  offline_fallback self_origin request cache w =
    (Fulfilled (JResponse (mkResponse 408 "text/plain" "Network error")), w).
Proof.
  intros Hnav. unfold offline_fallback.
  destruct (String.eqb_spec (mode request) "navigate"); [done|reflexivity].
Qed.

(** ** CACHE_FIRST *)

Lemma handleCacheFirst_hit (self_origin : string) (net : Network)
    (request : Request) (cache : string) (w : World) (r : Response) :
  lookup_bucket cache (url request) w = Some r →
  handleCacheFirst self_origin net request cache w = (Fulfilled (JResponse r), w).
Proof.
  intros Hhit. unfold handleCacheFirst, bind.
  rewrite (cache_match_hit _ _ _ _ Hhit). reflexivity.
Qed.

(** ** STALE_WHILE_REVALIDATE *)

(** The background refresh never rejects: its [catch] turns a rejection
    into [undefined]. *)
Lemma background_refresh_settles (net : Network) (request : Request)
    (cache : string) (w : World) :
  (try_catch
     (response <- fetch net (url request) ;;
      put_if_200 request cache response ;;
      ret (JResponse response))%async
     (fun _ => ret JUndefined) w).1 =
  match net (url request) with
  | Fulfilled response => Fulfilled (JResponse response)
  | Rejected _ => Fulfilled JUndefined
  | Pending => Pending
  end.
Proof.
  run_async. destruct (net (url request)) as [response| |]; simpl; try done.
  by destruct (status response =? 200).
Qed.

(** C6. With an entry for the request in the bucket,
    [handleStaleWhileRevalidate] resolves to that entry for every network:
    one that answers, one that rejects and one that never settles. *)
Theorem stale_while_revalidate_serves_cached (self_origin : string) (net : Network)
    (request : Request) (cache : string) (w : World) (r : Response) :
  lookup_bucket cache (url request) w = Some r →
  (handleStaleWhileRevalidate self_origin net request cache w).1
    = Fulfilled (JResponse r).
Proof.
  intros Hhit. unfold handleStaleWhileRevalidate, bind at 1.
  rewrite (cache_match_hit _ _ _ _ Hhit).
  run_async. destruct (net (url request)) as [response| |]; simpl; try done.
  by destruct (status response =? 200).
Qed.

Lemma stale_while_revalidate_serves_cached_witness :
  lookup_bucket CACHE_NAME (url (Scenario.get "/robots.txt" "cors")) Scenario.installed
    = Some (mkResponse 200 "text/plain" "https://example.com/robots.txt") ∧
  (handleStaleWhileRevalidate Scenario.app_origin Scenario.hanging
     (Scenario.get "/robots.txt" "cors") CACHE_NAME Scenario.installed).1
    = Fulfilled (JResponse (mkResponse 200 "text/plain" "https://example.com/robots.txt")).
Proof.
  split; [vm_compute; reflexivity|].
  apply (stale_while_revalidate_serves_cached Scenario.app_origin Scenario.hanging).
  vm_compute. reflexivity.
Defined.

(** The refresh still happens behind the cached answer: a 200 overwrites
    the entry. *)
Lemma stale_while_revalidate_refreshes (self_origin : string) (net : Network)
    (request : Request) (cache : string) (w : World) (r response : Response) :
  lookup_bucket cache (url request) w = Some r →
  net (url request) = Fulfilled response →
  status response = 200 →
  lookup_bucket cache (url request)
    (handleStaleWhileRevalidate self_origin net request cache w).2 = Some response.
Proof.
  intros Hhit Hnet H200. unfold handleStaleWhileRevalidate, bind at 1.
  rewrite (cache_match_hit _ _ _ _ Hhit).
  run_async. rewrite Hnet. simpl. rewrite H200. simpl.
  apply (lookup_bucket_put cache (url request) response (add_fetched (url request) w)).
Qed.

(** Without an entry, a rejected fetch makes the handler resolve to
    [undefined]: the rejection was already caught inside [fetchPromise],
    so the [catch] block of the handler is never entered. *)
Lemma stale_while_revalidate_miss_offline (self_origin : string) (net : Network)
    (request : Request) (cache : string) (w : World) (reason : string) :
  lookup_bucket cache (url request) w = None →
  net (url request) = Rejected reason →
  (handleStaleWhileRevalidate self_origin net request cache w).1 = Fulfilled JUndefined.
Proof.
  intros Hmiss Hnet. unfold handleStaleWhileRevalidate, bind at 1.
  rewrite (cache_match_miss _ _ _ Hmiss).
  run_async. rewrite Hnet. reflexivity.
Qed.

(** ** NETWORK_FIRST *)

(** C7. When the fetch resolves with status 200, [handleNetworkFirst]
    resolves to the live response and the bucket holds a copy of it under
    the request's URL; when the fetch rejects and the bucket has an entry
    for the request, it resolves to that entry. *)
Theorem network_first_fresh_else_cached (self_origin : string) (net : Network)
    (request : Request) (cache : string) (w : World) :
  (∀ response, net (url request) = Fulfilled response → status response = 200 →
     (handleNetworkFirst self_origin net request cache w).1
       = Fulfilled (JResponse response) ∧
     lookup_bucket cache (url request)
       (handleNetworkFirst self_origin net request cache w).2 = Some (clone response)) ∧
  (∀ reason r, net (url request) = Rejected reason →
     lookup_bucket cache (url request) w = Some r →
     (handleNetworkFirst self_origin net request cache w).1 = Fulfilled (JResponse r)).
Proof.
  split.
  - intros response Hnet H200. unfold handleNetworkFirst.
    run_async. rewrite Hnet. simpl. rewrite H200. simpl. split; [done|].
    apply (lookup_bucket_put cache (url request) response (add_fetched (url request) w)).
  - intros reason r Hnet Hhit. unfold handleNetworkFirst, try_catch, bind at 1.
    unfold fetch. rewrite Hnet. unfold bind.
    rewrite (cache_match_hit cache (url request) (add_fetched (url request) w) r Hhit).
    reflexivity.
Qed.

Lemma network_first_fresh_else_cached_witness :
  ((handleNetworkFirst Scenario.app_origin Scenario.online
      (Scenario.get "/contact.html" "navigate") CACHE_NAME Scenario.installed).1
     = Fulfilled (JResponse (mkResponse 200 "text/plain" "https://example.com/contact.html")) ∧
   lookup_bucket CACHE_NAME "https://example.com/contact.html"
     (handleNetworkFirst Scenario.app_origin Scenario.online
        (Scenario.get "/contact.html" "navigate") CACHE_NAME Scenario.installed).2
     = Some (mkResponse 200 "text/plain" "https://example.com/contact.html")) ∧
  (handleNetworkFirst Scenario.app_origin Scenario.offline
     (Scenario.get "/about.html" "navigate") CACHE_NAME Scenario.installed).1
    = Fulfilled (JResponse (mkResponse 200 "text/plain" "https://example.com/about.html")).
Proof.
  split.
  - apply (proj1 (network_first_fresh_else_cached Scenario.app_origin Scenario.online
                    (Scenario.get "/contact.html" "navigate") CACHE_NAME
                    Scenario.installed)); reflexivity.
  - apply (proj2 (network_first_fresh_else_cached Scenario.app_origin Scenario.offline
                    (Scenario.get "/about.html" "navigate") CACHE_NAME
                    Scenario.installed) "TypeError: Failed to fetch").
    + reflexivity.
    + vm_compute. reflexivity.
Defined.

(** ** Responses that are not a 200 *)

(** C10. When the fetch resolves with a status other than 200, each of
    the three handlers leaves CacheStorage exactly as it was.
    [handleNetworkFirst] resolves to that response; [handleCacheFirst]
    and [handleStaleWhileRevalidate] resolve to it when the bucket has no
    entry for the request, and to the entry otherwise. *)
Theorem non_200_is_returned_not_stored (self_origin : string) (net : Network)
    (request : Request) (cache : string) (w : World) (response : Response) :
  net (url request) = Fulfilled response →
  status response ≠ 200 →
  let served := match lookup_bucket cache (url request) w with
                | Some r => JResponse r
                | None => JResponse response
                end in
  (caches (handleCacheFirst self_origin net request cache w).2 = caches w ∧
   (handleCacheFirst self_origin net request cache w).1 = Fulfilled served) ∧
  (caches (handleNetworkFirst self_origin net request cache w).2 = caches w ∧
   (handleNetworkFirst self_origin net request cache w).1
     = Fulfilled (JResponse response)) ∧
  (caches (handleStaleWhileRevalidate self_origin net request cache w).2 = caches w ∧
   (handleStaleWhileRevalidate self_origin net request cache w).1 = Fulfilled served).
Proof.
  intros Hnet Hstatus. apply Z.eqb_neq in Hstatus. cbv zeta.
  unfold handleCacheFirst, handleNetworkFirst, handleStaleWhileRevalidate.
  run_async. rewrite Hnet. simpl. rewrite Hstatus.
  destruct (lookup_bucket cache (url request) w) as [r|]; simpl; done.
Qed.

Lemma non_200_is_returned_not_stored_witness :
  let request := Scenario.get "/brochure.pdf" "navigate" in
  let notFound := mkResponse 404 "text/plain" "Not Found" in
  (caches (handleCacheFirst Scenario.app_origin Scenario.missing request
             CACHE_NAME Scenario.installed).2 = caches Scenario.installed ∧
   (handleCacheFirst Scenario.app_origin Scenario.missing request
      CACHE_NAME Scenario.installed).1 = Fulfilled (JResponse notFound)) ∧
  (caches (handleNetworkFirst Scenario.app_origin Scenario.missing request
             CACHE_NAME Scenario.installed).2 = caches Scenario.installed ∧
   (handleNetworkFirst Scenario.app_origin Scenario.missing request
      CACHE_NAME Scenario.installed).1 = Fulfilled (JResponse notFound)) ∧
  (caches (handleStaleWhileRevalidate Scenario.app_origin Scenario.missing request
             CACHE_NAME Scenario.installed).2 = caches Scenario.installed ∧
   (handleStaleWhileRevalidate Scenario.app_origin Scenario.missing request
      CACHE_NAME Scenario.installed).1 = Fulfilled (JResponse notFound)).
Proof.
  apply (non_200_is_returned_not_stored Scenario.app_origin Scenario.missing
           (Scenario.get "/brochure.pdf" "navigate") CACHE_NAME Scenario.installed
           (mkResponse 404 "text/plain" "Not Found")).
  - reflexivity.
  - simpl. lia.
Defined.

(** ** Offline, with nothing cached for the request *)

(** What [handleCacheFirst] and [handleNetworkFirst] resolve to when the
    fetch rejects and the bucket has no entry for the request: for a
    navigation the outcome of the lookup of the offline page, be it a
    response or [undefined]; for anything else the 408 response. *)
Lemma offline_miss_outcome (self_origin : string) (net : Network)
    (request : Request) (cache : string) (w : World) (reason : string) :
  lookup_bucket cache (url request) w = None →
  net (url request) = Rejected reason →
  let outcome :=
    if String.eqb (mode request) "navigate" then
      match lookup_bucket cache (resolve self_origin OFFLINE_PAGE) w with
      | Some r => JResponse r
      | None => JUndefined
      end
    else JResponse (mkResponse 408 "text/plain" "Network error") in
  (handleCacheFirst self_origin net request cache w).1 = Fulfilled outcome ∧
  (handleNetworkFirst self_origin net request cache w).1 = Fulfilled outcome.
Proof.
  intros Hmiss Hnet. cbv zeta.
  unfold handleCacheFirst, handleNetworkFirst.
  unfold bind, try_catch, fetch, cache_match.
  rewrite Hnet, lookup_bucket_add_fetched, Hmiss. cbn [truthy].
  destruct (String.eqb_spec (mode request) "navigate") as [Hnav|Hnav].
  - rewrite !(offline_fallback_navigate _ _ _ _ Hnav). done.
  - rewrite !(offline_fallback_subresource _ _ _ _ Hnav). done.
Qed.

(** C3, at the failing input. After an install that stored the whole
    manifest the bucket holds the home page and no offline page. A
    navigation to a page that is not cached, with the network down, then
    resolves to [undefined] in each handler, although the home page is in
    the bucket; with an empty bucket it resolves to [undefined] as well,
    not to the 200 stub. *)
Theorem offline_navigation_resolves_to_undefined :
  let request := Scenario.get "/contact.html" "navigate" in
  let home := Scenario.app_origin +:+ "/index.html" in
  lookup_bucket CACHE_NAME home Scenario.installed
    = Some (mkResponse 200 "text/plain" home) ∧
  lookup_bucket CACHE_NAME (Scenario.app_origin +:+ OFFLINE_PAGE) Scenario.installed = None ∧
  lookup_bucket CACHE_NAME (url request) Scenario.installed = None ∧
  fst <$> fetch_event Scenario.app_origin Scenario.offline request Scenario.installed
    = Some (Fulfilled JUndefined) ∧
  (handleNetworkFirst Scenario.app_origin Scenario.offline request CACHE_NAME
     Scenario.installed).1 = Fulfilled JUndefined ∧
  (handleCacheFirst Scenario.app_origin Scenario.offline request CACHE_NAME
     Scenario.installed).1 = Fulfilled JUndefined ∧
  (handleStaleWhileRevalidate Scenario.app_origin Scenario.offline request CACHE_NAME
     Scenario.installed).1 = Fulfilled JUndefined ∧
  (handleNetworkFirst Scenario.app_origin Scenario.offline request CACHE_NAME
     Scenario.fresh).1 = Fulfilled JUndefined.
Proof. vm_compute. repeat split; reflexivity. Qed.

(** C4, at the failing input. A request for a path without a listed
    extension is handled by [handleStaleWhileRevalidate]; with nothing
    cached for it and the network down the handler resolves to
    [undefined], for a subresource and for a navigation alike. *)
Theorem stale_while_revalidate_offline_miss_is_undefined :
  let data := Scenario.get "/api/quotes" "cors" in
  let page := Scenario.get "/pricing" "navigate" in
  classify (request_url data) = CACHE_STRATEGY.STALE_WHILE_REVALIDATE ∧
  lookup_bucket CACHE_NAME (url data) Scenario.installed = None ∧
  (handleStaleWhileRevalidate Scenario.app_origin Scenario.offline data CACHE_NAME
     Scenario.installed).1 = Fulfilled JUndefined ∧
  fst <$> fetch_event Scenario.app_origin Scenario.offline data Scenario.installed
    = Some (Fulfilled JUndefined) ∧
  fst <$> fetch_event Scenario.app_origin Scenario.offline page Scenario.installed
    = Some (Fulfilled JUndefined).
Proof. vm_compute. repeat split; reflexivity. Qed.

(** ** The gate of the fetch listener *)

(** A request that is not a GET is left to the browser. *)
Lemma onFetch_skips_non_GET (self_origin : string) (net : Network) (request : Request) :
  method request ≠ "GET" → onFetch self_origin net request = None.
Proof.
  intros Hmethod. unfold onFetch.
  destruct (String.eqb_spec (method request) "GET"); [done|reflexivity].
Qed.

(** So is a request whose URL does not begin with the text of the
    worker's origin. *)
Lemma onFetch_skips_other_prefix (self_origin : string) (net : Network)
    (request : Request) :
  startsWith (url request) self_origin = false →
  onFetch self_origin net request = None.
Proof.
  intros Hprefix. unfold onFetch. rewrite Hprefix.
  by destruct (negb (method request =? "GET")%string).
Qed.

(** Every other request is answered by the handler of its class. *)
Lemma onFetch_dispatch (self_origin : string) (net : Network) (request : Request) :
  method request = "GET" →
  startsWith (url request) self_origin = true →
  onFetch self_origin net request
    = Some (handleRequest self_origin net request (classify (request_url request))).
Proof. intros Hmethod Hprefix. unfold onFetch. by rewrite Hmethod, Hprefix. Qed.

(** A request left to the browser changes nothing in the worker. *)
Lemma fetch_event_skipped (self_origin : string) (net : Network)
    (request : Request) (w : World) :
  onFetch self_origin net request = None →
  fetch_event self_origin net request w = None.
Proof. intros H. unfold fetch_event. by rewrite H. Qed.

(** C9, at the failing input. The worker runs on https://example.com and
    the page requests a script from https://example.com.cdn.net, another
    origin whose URL begins with the same characters. The listener
    responds to the request itself and the response is written to the
    bucket. *)
Theorem cross_origin_request_with_shared_prefix_is_cached :
  let request := Scenario.foreign_script in
  let served := mkResponse 200 "text/plain" "https://example.com.cdn.net/main.js" in
  method request = "GET" ∧
  origin (request_url request) ≠ Scenario.app_origin ∧
  startsWith (url request) Scenario.app_origin = true ∧
  fst <$> fetch_event Scenario.app_origin Scenario.online request Scenario.installed
    = Some (Fulfilled (JResponse served)) ∧
  lookup_bucket CACHE_NAME (url request) Scenario.installed = None ∧
  (λ r, lookup_bucket CACHE_NAME (url request) r.2)
    <$> fetch_event Scenario.app_origin Scenario.online request Scenario.installed
    = Some (Some served).
Proof. vm_compute. repeat split; try reflexivity. discriminate. Qed.

(** ** install *)

(** The promise given to [waitUntil] by the install listener never
    rejects: the [catch] at the end of the chain resolves it. *)
Lemma onInstall_never_rejects (self_origin : string) (net : Network) (w : World)
    (reason : string) :
  (onInstall self_origin net w).1 ≠ Rejected reason.
Proof.
  unfold onInstall. unfold bind at 1. unfold console_log at 1.
  unfold try_catch.
  match goal with
  | |- context [match ?m ?w' with _ => _ end] => destruct (m w') as [[u|e|] w'']
  end; simpl; discriminate.
Qed.

(** C2, at the failing input. One file of the manifest is answered with
    a 404. [cache.addAll] rejects and nothing is stored, the listener
    logs that the installation failed, and yet the promise it gave to the
    browser is fulfilled, so the browser takes the worker as installed. *)
Theorem failed_precache_still_installs :
  let result := onInstall Scenario.app_origin Scenario.broken_deploy Scenario.fresh in
  Scenario.broken_deploy (Scenario.app_origin +:+ "/style.css")
    = Fulfilled (mkResponse 404 "text/plain" "Not Found") ∧
  result.1 = Fulfilled tt ∧
  install_outcome result.1 = Installed ∧
  head (console result.2) = Some "Service Worker: Installation failed" ∧
  skipWaitingCalled result.2 = false ∧
  caches result.2 = {[ CACHE_NAME := ∅ ]} ∧
  (onInstall Scenario.app_origin Scenario.offline Scenario.fresh).1 = Fulfilled tt.
Proof. vm_compute. repeat split; reflexivity. Qed.

(** ** activate *)

Lemma purge_lookup (names : list string) (cs : gmap string (gmap string Response))
    (k : string) :
  foldl purge_step cs names !! k =
    if decide (k ∈ names ∧ k ≠ CACHE_NAME) then None else cs !! k.
Proof.
  revert cs. induction names as [|name names IH]; intros cs; cbn [foldl].
  - destruct (decide (k ∈ [] ∧ k ≠ CACHE_NAME)) as [[H _]|_]; [inversion H|done].
  - rewrite IH. unfold purge_step.
    destruct (decide (k ∈ names ∧ k ≠ CACHE_NAME)) as [[Hin Hk]|Hnot].
    + rewrite decide_True; [done|]. split; [by right|done].
    + destruct (String.eqb_spec name CACHE_NAME) as [->|Hname].
      * destruct (decide (k ∈ CACHE_NAME :: names ∧ k ≠ CACHE_NAME))
          as [[Hin Hk]|_]; [|done].
        exfalso. apply Hnot. split; [|done].
        apply elem_of_cons in Hin as [?|?]; done.
      * destruct (decide (k = name)) as [->|Hk].
        -- rewrite lookup_delete_eq. rewrite decide_True; [done|].
           split; [by left|].
           destruct (decide (name = CACHE_NAME)) as [Heq|?]; [|done].
           exfalso. apply Hname. done.
        -- rewrite lookup_delete_ne by done.
           destruct (decide (k ∈ name :: names ∧ k ≠ CACHE_NAME))
             as [[Hin Hk']|_]; [|done].
           exfalso. apply Hnot. split; [|done].
           apply elem_of_cons in Hin as [?|?]; done.
Qed.

Lemma spawn_each_fulfilled {A} (ms : list (Async A)) (w : World) :
  ∃ ps w', spawn_each ms w = (Fulfilled ps, w').
Proof.
  revert w. induction ms as [|m ms IH]; intros w; cbn [spawn_each].
  - by exists [], w.
  - unfold bind at 1, spawn. destruct (m w) as [p w1].
    destruct (IH w1) as (ps & w' & Hrest).
    unfold bind, ret. rewrite Hrest. eauto.
Qed.

Lemma delete_if_old_run (name : string) (w : World) :
  ∃ v w', delete_if_old name w = (Fulfilled v, w') ∧
          caches w' = purge_step (caches w) name.
Proof.
  unfold delete_if_old, purge_step.
  destruct (String.eqb name CACHE_NAME); cbn [negb].
  - by exists None, w.
  - run_async. unfold caches_delete. eauto.
Qed.

(** The deletions all settle, and together they fold [purge_step] over
    the names. *)
Lemma purge_all_run (names : list string) (w : World) :
  ∃ vs w',
    Promise_all (map delete_if_old names) w = (Fulfilled vs, w') ∧
    caches w' = foldl purge_step (caches w) names.
Proof.
  unfold Promise_all.
  revert w. induction names as [|name names IH]; intros w.
  - by exists [], w.
  - cbn [map spawn_each foldl].
    destruct (delete_if_old_run name w) as (v & w1 & Hone & Hcaches1).
    destruct (IH w1) as (vs & w' & Hrun & Hcaches).
    destruct (spawn_each_fulfilled (map delete_if_old names) w1)
      as (ps & w2 & Hrest).
    revert Hrun. unfold bind, spawn, ret, await. rewrite Hone, Hrest.
    intros [= Hall ->]. cbn [all_settled]. rewrite Hall.
    exists (v :: vs), w'. split; [done|]. by rewrite Hcaches, Hcaches1.
Qed.

Lemma onActivate_run (w : World) :
  (onActivate w).1 = Fulfilled tt ∧
  caches (onActivate w).2 = foldl purge_step (caches w) (map_to_list (caches w)).*1.
Proof.
  destruct (purge_all_run (map_to_list (caches w)).*1
              (add_console "Service Worker: Activating..." w))
    as (vs & w' & Hpurge & Hcaches).
  assert (Heq : onActivate w =
            (Fulfilled tt,
             set_claimed (add_console "Service Worker: Activation complete" w'))).
  { unfold onActivate. unfold bind at 1. unfold console_log at 1.
    unfold bind at 1. unfold caches_keys at 1. unfold bind at 1.
    cbn [caches add_console]. cbn [caches add_console] in Hpurge.
    rewrite Hpurge. reflexivity. }
  rewrite Heq. split; [done|]. exact Hcaches.
Qed.

(** Purging every name of a storage leaves the current bucket alone. *)
Lemma purge_every_name (cs : gmap string (gmap string Response)) :
  foldl purge_step cs (map_to_list cs).*1 =
    match cs !! CACHE_NAME with
    | Some bucket => {[ CACHE_NAME := bucket ]}
    | None => ∅
    end.
Proof.
  apply map_eq. intros k. rewrite purge_lookup.
  destruct (decide (k = CACHE_NAME)) as [->|Hk].
  - case_decide as H; [by destruct H|].
    destruct (cs !! CACHE_NAME) as [bucket|] eqn:E.
    + by rewrite lookup_singleton_eq.
    + by rewrite lookup_empty.
  - assert (Hnone : (match cs !! CACHE_NAME with
                     | Some bucket => {[ CACHE_NAME := bucket ]}
                     | None => ∅
                     end : gmap string (gmap string Response)) !! k = None).
    { destruct (cs !! CACHE_NAME); [by apply lookup_singleton_ne|apply lookup_empty]. }
    rewrite Hnone. case_decide as H; [done|].
    destruct (cs !! k) as [b|] eqn:E; [|done].
    exfalso. apply H. split; [|done].
    apply list_elem_of_fmap. exists (k, b). split; [done|].
    by apply elem_of_map_to_list.
Qed.

(** C5 (as amended). For every starting CacheStorage, activation
    completes and leaves no bucket under a name other than [CACHE_NAME];
    the current bucket is kept, with its contents, when it was there and
    is not created when it was not. So the buckets with the app's prefix
    are the current one alone if it existed before, and none otherwise. *)
Theorem activate_keeps_only_current (w : World) :
  (onActivate w).1 = Fulfilled tt ∧
  caches (onActivate w).2 =
    match caches w !! CACHE_NAME with
    | Some bucket => {[ CACHE_NAME := bucket ]}
    | None => ∅
    end ∧
  app_buckets (onActivate w).2 =
    match caches w !! CACHE_NAME with
    | Some _ => [CACHE_NAME]
    | None => []
    end.
Proof.
  destruct (onActivate_run w) as [Hdone Hcaches].
  rewrite purge_every_name in Hcaches.
  split; [done|]. split; [done|].
  unfold app_buckets. rewrite Hcaches.
  destruct (caches w !! CACHE_NAME) as [bucket|].
  - rewrite map_to_list_singleton. reflexivity.
  - rewrite map_to_list_empty. reflexivity.
Qed.

(** C5, the counterexample: storage that holds only the previous
    version's bucket is empty after activation, so no bucket with the
    app's prefix exists, rather than exactly one. *)
Lemma activate_from_old_bucket_only_leaves_none :
  app_buckets Scenario.old_only = ["mainstream-tinting-v1.1"] ∧
  (onActivate Scenario.old_only).1 = Fulfilled tt ∧
  caches (onActivate Scenario.old_only).2 = ∅ ∧
  app_buckets (onActivate Scenario.old_only).2 = [] ∧
  length (app_buckets (onActivate Scenario.old_only).2) ≠ 1%nat.
Proof. vm_compute. repeat split; try reflexivity. discriminate. Qed.

(** Seeded with the previous and the current bucket, only the current
    one remains. *)
Lemma activate_purges_old_bucket :
  app_buckets (onActivate Scenario.old_and_current).2 = [CACHE_NAME].
Proof. vm_compute. reflexivity. Qed.

(** ** install followed by activate *)

Section Preservation.
Context (P : World → Prop).

Lemma preserves_bind {A B} (m : Async A) (k : A → Async B) :
  preserves P m → (∀ a, preserves P (k a)) → preserves P (bind m k).
Proof.
  intros Hm Hk w Hw. unfold bind. specialize (Hm w Hw).
  destruct (m w) as [[a|e|] w']; simpl in *; [by apply Hk|done|done].
Qed.

Lemma preserves_try_catch {A} (m : Async A) (h : string → Async A) :
  preserves P m → (∀ e, preserves P (h e)) → preserves P (try_catch m h).
Proof.
  intros Hm Hh w Hw. unfold try_catch. specialize (Hm w Hw).
  destruct (m w) as [[a|e|] w']; simpl in *; [done|by apply Hh|done].
Qed.

Lemma preserves_ret {A} (a : A) : preserves P (ret a).
Proof. by intros w Hw. Qed.

Lemma preserves_throw {A} (e : string) : preserves P (@throw A e).
Proof. by intros w Hw. Qed.

Lemma preserves_await {A} (p : promise A) : preserves P (await p).
Proof. by intros w Hw. Qed.

Lemma preserves_spawn {A} (m : Async A) : preserves P m → preserves P (spawn m).
Proof.
  intros Hm w Hw. unfold spawn. specialize (Hm w Hw).
  by destruct (m w) as [p w'].
Qed.

Lemma preserves_Promise_all {A} (ms : list (Async A)) :
  Forall (preserves P) ms → preserves P (Promise_all ms).
Proof.
  intros Hms. unfold Promise_all.
  apply preserves_bind; [|intros; apply preserves_await].
  induction Hms as [|m ms Hm _ IH]; [apply preserves_ret|].
  cbn [spawn_each].
  apply preserves_bind; [by apply preserves_spawn|]. intros p.
  apply preserves_bind; [done|]. intros ps. apply preserves_ret.
Qed.
End Preservation.

Lemma caches_open_creates (w : World) :
  (caches_open CACHE_NAME w).1 = Fulfilled CACHE_NAME ∧
  has_current_bucket (caches_open CACHE_NAME w).2.
Proof.
  unfold caches_open, has_current_bucket. split; [done|]. simpl.
  destruct (caches w !! CACHE_NAME) eqn:E; simpl.
  - by rewrite E.
  - by rewrite lookup_insert_eq.
Qed.

Lemma cache_addAll_keeps_current (self_origin : string) (net : Network)
    (paths : list string) :
  preserves has_current_bucket (cache_addAll self_origin net CACHE_NAME paths).
Proof.
  unfold cache_addAll. apply preserves_bind.
  - apply preserves_Promise_all. apply Forall_forall. intros m Hm.
    apply list_elem_of_In, in_map_iff in Hm as (path & <- & _).
    apply preserves_bind; [by intros w Hw|]. intros r.
    destruct (storable r); [apply preserves_ret|apply preserves_throw].
  - intros rs w Hw. unfold has_current_bucket. simpl.
    by rewrite lookup_insert_eq.
Qed.

(** Install opens the current bucket before anything can fail, so after
    it the bucket exists whatever the network did. *)
Lemma onInstall_creates_current (self_origin : string) (net : Network) (w : World) :
  has_current_bucket (onInstall self_origin net w).2.
Proof.
  unfold onInstall. unfold bind at 1. unfold console_log at 1.
  unfold try_catch. unfold bind at 1.
  destruct (caches_open_creates (add_console "Service Worker: Installing..." w))
    as [Hopen Hcur].
  destruct (caches_open CACHE_NAME _) as [p w1]. simpl in Hopen, Hcur. subst p.
  assert (Hrest : preserves has_current_bucket
            (console_log "Service Worker: Caching essential files" ;;
             cache_addAll self_origin net CACHE_NAME CACHE_FILES ;;
             console_log "Service Worker: Installation complete" ;;
             skipWaiting)%async).
  { apply preserves_bind; [by intros w' Hw'|]. intros _.
    apply preserves_bind; [apply cache_addAll_keeps_current|]. intros _.
    apply preserves_bind; [by intros w' Hw'|]. intros _.
    by intros w' Hw'. }
  specialize (Hrest w1 Hcur).
  destruct ((_ ;; _)%async w1) as [[u|e|] w2]; simpl in *; done.
Qed.

(** X20. Bucket singularity over the lifecycle: from any storage and
    with any network, install followed by activate leaves exactly the
    current bucket. *)
Lemma install_then_activate_single_bucket (self_origin : string) (net : Network)
    (w : World) :
  app_buckets (onActivate (onInstall self_origin net w).2).2 = [CACHE_NAME] ∧
  dom (caches (onActivate (onInstall self_origin net w).2).2) = {[ CACHE_NAME ]}.
Proof.
  destruct (onInstall_creates_current self_origin net w) as [bucket Hcur].
  destruct (onActivate_run (onInstall self_origin net w).2) as [_ Hcaches].
  rewrite purge_every_name, Hcur in Hcaches.
  unfold app_buckets. rewrite Hcaches, map_to_list_singleton.
  split; [reflexivity|]. by rewrite dom_singleton_L.
Qed.


(** * Further properties of the worker *)

(** ** What each handler does, case by case *)

Lemma offline_fallback_run (self_origin : string) (request : Request)
    (cache : string) (w : World) :
  ∃ v, offline_fallback self_origin request cache w = (Fulfilled v, w).
Proof.
  unfold offline_fallback. destruct (String.eqb (mode request) "navigate").
  - run_async. eauto.
  - unfold ret. eauto.
Qed.

Lemma network_answer_run (net : Network) (request : Request) (cache : string)
    (w : World) :
  (response <- fetch net (url request) ;;
   put_if_200 request cache response ;;
   ret (JResponse response))%async w =
  match net (url request) with
  | Fulfilled response =>
      (Fulfilled (JResponse response), after_fetch request cache response w)
  | Rejected e => (Rejected e, add_fetched (url request) w)
  | Pending => (Pending, add_fetched (url request) w)
  end.
Proof.
  unfold after_fetch. run_async.
  destruct (net (url request)) as [response| |]; simpl; try done.
  by destruct (status response =? 200).
Qed.

Lemma handleNetworkFirst_run (self_origin : string) (net : Network)
    (request : Request) (cache : string) (w : World) :
  handleNetworkFirst self_origin net request cache w =
  match net (url request) with
  | Fulfilled response =>
      (Fulfilled (JResponse response), after_fetch request cache response w)
  | Rejected _ =>
      match lookup_bucket cache (url request) w with
      | Some r => (Fulfilled (JResponse r), add_fetched (url request) w)
      | None => offline_fallback self_origin request cache (add_fetched (url request) w)
      end
  | Pending => (Pending, add_fetched (url request) w)
  end.
Proof.
  unfold handleNetworkFirst, try_catch. rewrite network_answer_run.
  destruct (net (url request)) as [response|e|]; try done.
  unfold bind, cache_match. rewrite lookup_bucket_add_fetched.
  by destruct (lookup_bucket cache (url request) w).
Qed.

Lemma handleCacheFirst_run (self_origin : string) (net : Network)
    (request : Request) (cache : string) (w : World) :
  handleCacheFirst self_origin net request cache w =
  match lookup_bucket cache (url request) w with
  | Some r => (Fulfilled (JResponse r), w)
  | None =>
      match net (url request) with
      | Fulfilled response =>
          (Fulfilled (JResponse response), after_fetch request cache response w)
      | Rejected _ =>
          offline_fallback self_origin request cache (add_fetched (url request) w)
      | Pending => (Pending, add_fetched (url request) w)
      end
  end.
Proof.
  unfold handleCacheFirst. unfold bind at 1. unfold cache_match.
  destruct (lookup_bucket cache (url request) w) as [r|]; [done|].
  cbn [truthy]. unfold try_catch. rewrite network_answer_run.
  by destruct (net (url request)).
Qed.

Lemma handleStaleWhileRevalidate_run (self_origin : string) (net : Network)
    (request : Request) (cache : string) (w : World) :
  handleStaleWhileRevalidate self_origin net request cache w =
  let w' := match net (url request) with
            | Fulfilled response => after_fetch request cache response w
            | _ => add_fetched (url request) w
            end in
  match lookup_bucket cache (url request) w with
  | Some r => (Fulfilled (JResponse r), w')
  | None =>
      match net (url request) with
      | Fulfilled response => (Fulfilled (JResponse response), w')
      | Rejected _ => (Fulfilled JUndefined, w')
      | Pending => (Pending, w')
      end
  end.
Proof.
  unfold handleStaleWhileRevalidate. unfold bind at 1. unfold cache_match.
  unfold bind at 1. unfold spawn, try_catch. rewrite network_answer_run.
  cbv zeta.
  destruct (lookup_bucket cache (url request) w) as [r|];
    destruct (net (url request)) as [response|e|]; done.
Qed.

Lemma handleRequest_run (self_origin : string) (net : Network)
    (request : Request) (strategy : string) (w : World) :
  handleRequest self_origin net request strategy w =
  (if String.eqb strategy CACHE_STRATEGY.CACHE_FIRST then
     handleCacheFirst self_origin net request CACHE_NAME
   else if String.eqb strategy CACHE_STRATEGY.NETWORK_FIRST then
     handleNetworkFirst self_origin net request CACHE_NAME
   else handleStaleWhileRevalidate self_origin net request CACHE_NAME)
    (caches_open CACHE_NAME w).2.
Proof. reflexivity. Qed.

Lemma fetched_after_fetch (request : Request) (cache : string) (response : Response)
    (w : World) :
  fetched (after_fetch request cache response w) = url request :: fetched w.
Proof. unfold after_fetch. by destruct (status response =? 200). Qed.

Lemma caches_after_fetch (request : Request) (cache : string) (response : Response)
    (w : World) :
  caches (after_fetch request cache response w) =
    if status response =? 200
    then <[cache := <[url request := response]> (default ∅ (caches w !! cache))]> (caches w)
    else caches w.
Proof. unfold after_fetch. by destruct (status response =? 200). Qed.

Lemma lookup_after_fetch (request : Request) (cache : string) (response : Response)
    (w : World) (name key : string) :
  lookup_bucket name key (after_fetch request cache response w) =
    if decide (name = cache ∧ key = url request ∧ status response = 200)
    then Some response
    else lookup_bucket name key w.
Proof.
  unfold lookup_bucket. rewrite caches_after_fetch.
  destruct (Z.eqb_spec (status response) 200) as [H200|H200].
  - destruct (decide (name = cache)) as [->|Hname].
    + rewrite lookup_insert_eq. simpl.
      destruct (decide (key = url request)) as [->|Hkey].
      * rewrite lookup_insert_eq. by rewrite decide_True.
      * rewrite lookup_insert_ne by done.
        rewrite decide_False by (intros (_ & Heq & _); done).
        by destruct (caches w !! cache).
    + rewrite lookup_insert_ne by done.
      by rewrite decide_False by (intros (Heq & _); done).
  - by rewrite decide_False by (intros (_ & _ & Heq); done).
Qed.

(** ** Failures stay inside the handlers *)


(** ** Network traffic *)

(** X2. A handler issues at most one network request, and only for the
    request's own URL: [handleNetworkFirst] and
    [handleStaleWhileRevalidate] always issue exactly one (the latter
    also on a cache hit), [handleCacheFirst] exactly one on a miss and
    none on a hit. *)
Theorem handlers_fetch_once (self_origin : string) (net : Network)
    (request : Request) (cache : string) (w : World) :
  fetched (handleCacheFirst self_origin net request cache w).2 =
    match lookup_bucket cache (url request) w with
    | Some _ => fetched w
    | None => url request :: fetched w
    end ∧
  fetched (handleNetworkFirst self_origin net request cache w).2
    = url request :: fetched w ∧
  fetched (handleStaleWhileRevalidate self_origin net request cache w).2
    = url request :: fetched w.
Proof.
  rewrite handleCacheFirst_run, handleNetworkFirst_run, handleStaleWhileRevalidate_run.
  cbv zeta.
  destruct (offline_fallback_run self_origin request cache
              (add_fetched (url request) w)) as [v ->].
  destruct (lookup_bucket cache (url request) w);
    destruct (net (url request)); simpl; rewrite ?fetched_after_fetch; done.
Qed.

(** ** What reaches the bucket *)

(** X3. Unless the fetch resolves with status 200, a handler leaves
    CacheStorage as it was: a rejected fetch, a fetch that never settles
    and a response with another status all store nothing. *)
Theorem handlers_store_only_200 (self_origin : string) (net : Network)
    (request : Request) (cache : string) (w : World) :
  (∀ response, net (url request) = Fulfilled response → status response ≠ 200) →
  caches (handleCacheFirst self_origin net request cache w).2 = caches w ∧
  caches (handleNetworkFirst self_origin net request cache w).2 = caches w ∧
  caches (handleStaleWhileRevalidate self_origin net request cache w).2 = caches w.
Proof.
  intros Hnot200.
  rewrite handleCacheFirst_run, handleNetworkFirst_run, handleStaleWhileRevalidate_run.
  cbv zeta.
  destruct (offline_fallback_run self_origin request cache
              (add_fetched (url request) w)) as [v ->].
  destruct (net (url request)) as [response|e|] eqn:Hnet.
  - specialize (Hnot200 response eq_refl). apply Z.eqb_neq in Hnot200.
    destruct (lookup_bucket cache (url request) w); simpl;
      rewrite ?caches_after_fetch, ?Hnot200; done.
  - destruct (lookup_bucket cache (url request) w); done.
  - destruct (lookup_bucket cache (url request) w); done.
Qed.

Lemma handlers_store_only_200_witness :
  let request := Scenario.get "/contact.html" "navigate" in
  caches (handleCacheFirst Scenario.app_origin Scenario.offline request
            CACHE_NAME Scenario.installed).2 = caches Scenario.installed ∧
  caches (handleNetworkFirst Scenario.app_origin Scenario.offline request
            CACHE_NAME Scenario.installed).2 = caches Scenario.installed ∧
  caches (handleStaleWhileRevalidate Scenario.app_origin Scenario.offline request
            CACHE_NAME Scenario.installed).2 = caches Scenario.installed.
Proof.
  apply (handlers_store_only_200 Scenario.app_origin Scenario.offline
           (Scenario.get "/contact.html" "navigate") CACHE_NAME Scenario.installed).
  intros response Hnet. discriminate Hnet.
Defined.

(** X4. A handler changes no entry other than the one under the
    request's URL in the bucket it was given: every other key of that
    bucket and every other bucket read as before. *)
Theorem handlers_touch_one_entry (self_origin : string) (net : Network)
    (request : Request) (cache : string) (w : World) (name key : string) :
  name ≠ cache ∨ key ≠ url request →
  lookup_bucket name key (handleCacheFirst self_origin net request cache w).2
    = lookup_bucket name key w ∧
  lookup_bucket name key (handleNetworkFirst self_origin net request cache w).2
    = lookup_bucket name key w ∧
  lookup_bucket name key (handleStaleWhileRevalidate self_origin net request cache w).2
    = lookup_bucket name key w.
Proof.
  intros Hother.
  rewrite handleCacheFirst_run, handleNetworkFirst_run, handleStaleWhileRevalidate_run.
  cbv zeta.
  destruct (offline_fallback_run self_origin request cache
              (add_fetched (url request) w)) as [v ->].
  assert (Hframe : ∀ response,
            lookup_bucket name key (after_fetch request cache response w)
            = lookup_bucket name key w).
  { intros response. rewrite lookup_after_fetch.
    rewrite decide_False; [done|]. intros (-> & -> & _). by destruct Hother. }
  destruct (lookup_bucket cache (url request) w);
    destruct (net (url request)); simpl; rewrite ?Hframe; done.
Qed.

Lemma handlers_touch_one_entry_witness :
  let request := Scenario.get "/contact.html" "navigate" in
  let key := "https://example.com/index.html" in
  lookup_bucket CACHE_NAME key
    (handleCacheFirst Scenario.app_origin Scenario.online request CACHE_NAME
       Scenario.installed).2 = lookup_bucket CACHE_NAME key Scenario.installed ∧
  lookup_bucket CACHE_NAME key
    (handleNetworkFirst Scenario.app_origin Scenario.online request CACHE_NAME
       Scenario.installed).2 = lookup_bucket CACHE_NAME key Scenario.installed ∧
  lookup_bucket CACHE_NAME key
    (handleStaleWhileRevalidate Scenario.app_origin Scenario.online request CACHE_NAME
       Scenario.installed).2 = lookup_bucket CACHE_NAME key Scenario.installed.
Proof.
  apply (handlers_touch_one_entry Scenario.app_origin Scenario.online
           (Scenario.get "/contact.html" "navigate") CACHE_NAME Scenario.installed
           CACHE_NAME "https://example.com/index.html").
  right. vm_compute. discriminate.
Defined.

(** X5. When the fetch resolves with status 200,
    [handleStaleWhileRevalidate] leaves the fresh response in the bucket
    under the request's URL, on a hit as on a miss; it resolves to the
    old entry on a hit and to the fresh response on a miss. *)
Theorem stale_while_revalidate_stores_fresh (self_origin : string) (net : Network)
    (request : Request) (cache : string) (w : World) (response : Response) :
  net (url request) = Fulfilled response →
  status response = 200 →
  lookup_bucket cache (url request)
    (handleStaleWhileRevalidate self_origin net request cache w).2 = Some response ∧
  (handleStaleWhileRevalidate self_origin net request cache w).1 =
    Fulfilled (JResponse (default response (lookup_bucket cache (url request) w))).
Proof.
  intros Hnet H200. rewrite handleStaleWhileRevalidate_run. cbv zeta.
  rewrite Hnet.
  assert (Hstored : lookup_bucket cache (url request)
                      (after_fetch request cache response w) = Some response).
  { rewrite lookup_after_fetch. by rewrite decide_True. }
  destruct (lookup_bucket cache (url request) w); simpl; done.
Qed.

Lemma stale_while_revalidate_stores_fresh_witness :
  let request := Scenario.get "/robots.txt" "cors" in
  let fresh := mkResponse 200 "text/plain" "User-agent: *" in
  let net : Network := fun _ => Fulfilled fresh in
  lookup_bucket CACHE_NAME (url request)
    (handleStaleWhileRevalidate Scenario.app_origin net request CACHE_NAME
       Scenario.installed).2 = Some fresh ∧
  (handleStaleWhileRevalidate Scenario.app_origin net request CACHE_NAME
     Scenario.installed).1 =
    Fulfilled (JResponse (default fresh
      (lookup_bucket CACHE_NAME (url request) Scenario.installed))).
Proof.
  apply (stale_while_revalidate_stores_fresh Scenario.app_origin
           (fun _ => Fulfilled (mkResponse 200 "text/plain" "User-agent: *"))
           (Scenario.get "/robots.txt" "cors") CACHE_NAME Scenario.installed);
    reflexivity.
Defined.

(** ** Two calls in a row *)

Lemma lookup_before_puts (name key : string) (w settled : World) :
  lookup_bucket name key (before_puts w settled) = lookup_bucket name key w.
Proof. reflexivity. Qed.

Lemma fetched_before_puts (w settled : World) :
  fetched (before_puts w settled) = fetched settled.
Proof. reflexivity. Qed.

(** A miss always goes to the network. *)
Lemma handleCacheFirst_miss_fetches (self_origin : string) (net : Network)
    (request : Request) (cache : string) (w : World) :
  lookup_bucket cache (url request) w = None →
  fetched (handleCacheFirst self_origin net request cache w).2
    = url request :: fetched w.
Proof.
  intros Hmiss. rewrite handleCacheFirst_run, Hmiss.
  destruct (offline_fallback_run self_origin request cache
              (add_fetched (url request) w)) as [v ->].
  destruct (net (url request)); cbn [snd]; rewrite ?fetched_after_fetch; done.
Qed.

(** A miss that is not answered with a 200 is still a miss afterwards. *)
Lemma handleCacheFirst_miss_stays (self_origin : string) (net : Network)
    (request : Request) (cache : string) (w : World) :
  lookup_bucket cache (url request) w = None →
  (∀ response, net (url request) = Fulfilled response → status response ≠ 200) →
  lookup_bucket cache (url request)
    (handleCacheFirst self_origin net request cache w).2 = None.
Proof.
  intros Hmiss Hnot200. rewrite handleCacheFirst_run, Hmiss.
  destruct (offline_fallback_run self_origin request cache
              (add_fetched (url request) w)) as [v ->].
  destruct (net (url request)) as [response|e|] eqn:Hnet; cbn [snd]; [|done|done].
  rewrite lookup_after_fetch, decide_False; [done|].
  intros (_ & _ & H200). by apply (Hnot200 response).
Qed.

(** C8 (as amended). With an entry for the request in the bucket,
    [handleCacheFirst] resolves to that entry and leaves the world as it
    was, so a second call in a row gives the same response and neither
    call issues a network request. Without an entry the first call goes
    to the network. If it is answered with a 200, a second call that
    starts once the un-awaited [cache.put] has landed gives the same
    response and issues no request, whatever the network does by then,
    while a second call that starts before the put has landed goes to the
    network again. If the first call is not answered with a 200 (another
    status, a rejection, no answer), nothing is stored and the second
    call goes to the network again. *)
Theorem cache_first_two_calls (self_origin : string) (net1 net2 : Network)
    (request : Request) (cache : string) (w : World) :
  let first := handleCacheFirst self_origin net1 request cache w in
  let second := handleCacheFirst self_origin net2 request cache first.2 in
  let early :=
    handleCacheFirst self_origin net2 request cache (before_puts w first.2) in
  (∀ r, lookup_bucket cache (url request) w = Some r →
     first.1 = Fulfilled (JResponse r) ∧
     first.2 = w ∧
     second.1 = first.1 ∧
     fetched second.2 = fetched w) ∧
  (∀ response, lookup_bucket cache (url request) w = None →
     net1 (url request) = Fulfilled response →
     status response = 200 →
     first.1 = Fulfilled (JResponse response) ∧
     fetched first.2 = url request :: fetched w ∧
     second.1 = first.1 ∧
     fetched second.2 = fetched first.2 ∧
     fetched early.2 = url request :: fetched first.2) ∧
  (lookup_bucket cache (url request) w = None →
     (∀ response, net1 (url request) = Fulfilled response → status response ≠ 200) →
     fetched first.2 = url request :: fetched w ∧
     fetched second.2 = url request :: fetched first.2).
Proof.
  cbv zeta. split; [|split].
  - intros r Hhit.
    rewrite (handleCacheFirst_hit self_origin net1 _ _ _ _ Hhit). cbn [fst snd].
    rewrite (handleCacheFirst_hit self_origin net2 _ _ _ _ Hhit). done.
  - intros response Hmiss Hnet H200.
    assert (Hstored : lookup_bucket cache (url request)
                        (after_fetch request cache response w) = Some response).
    { rewrite lookup_after_fetch. by rewrite decide_True. }
    rewrite (handleCacheFirst_run self_origin net1), Hmiss, Hnet. cbn [fst snd].
    rewrite (handleCacheFirst_hit self_origin net2 _ _ _ _ Hstored). cbn [fst snd].
    rewrite handleCacheFirst_miss_fetches by (by rewrite lookup_before_puts).
    rewrite fetched_before_puts, !fetched_after_fetch. done.
  - intros Hmiss Hnot200.
    pose proof (handleCacheFirst_miss_stays self_origin net1 _ _ _ Hmiss Hnot200)
      as Hstill.
    rewrite (handleCacheFirst_miss_fetches self_origin net2 _ _ _ Hstill).
    by rewrite (handleCacheFirst_miss_fetches self_origin net1 _ _ _ Hmiss).
Qed.

Lemma cache_first_two_calls_witness :
  let cached := Scenario.get "/style.css" "no-cors" in
  let image := Scenario.get "/gallery/van.jpg" "no-cors" in
  let run net1 net2 request :=
    let first := handleCacheFirst Scenario.app_origin net1 request CACHE_NAME
                   Scenario.installed in
    (first,
     handleCacheFirst Scenario.app_origin net2 request CACHE_NAME first.2,
     handleCacheFirst Scenario.app_origin net2 request CACHE_NAME
       (before_puts Scenario.installed first.2)) in
  (let '(first, second, _) := run Scenario.hanging Scenario.offline cached in
   first.1 = Fulfilled (JResponse
               (mkResponse 200 "text/plain" "https://example.com/style.css")) ∧
   first.2 = Scenario.installed ∧
   second.1 = first.1 ∧
   fetched second.2 = fetched Scenario.installed) ∧
  (let '(first, second, early) := run Scenario.online Scenario.offline image in
   first.1 = Fulfilled (JResponse
               (mkResponse 200 "text/plain" "https://example.com/gallery/van.jpg")) ∧
   fetched first.2 = url image :: fetched Scenario.installed ∧
   second.1 = first.1 ∧
   fetched second.2 = fetched first.2 ∧
   fetched early.2 = url image :: fetched first.2) ∧
  (let '(first, second, _) := run Scenario.missing Scenario.missing image in
   fetched first.2 = url image :: fetched Scenario.installed ∧
   fetched second.2 = url image :: fetched first.2).
Proof.
  cbv zeta beta iota. split; [|split].
  - apply (proj1 (cache_first_two_calls Scenario.app_origin Scenario.hanging
                    Scenario.offline (Scenario.get "/style.css" "no-cors")
                    CACHE_NAME Scenario.installed)).
    vm_compute. reflexivity.
  - apply (proj1 (proj2 (cache_first_two_calls Scenario.app_origin Scenario.online
                    Scenario.offline (Scenario.get "/gallery/van.jpg" "no-cors")
                    CACHE_NAME Scenario.installed))).
    + vm_compute. reflexivity.
    + reflexivity.
    + reflexivity.
  - apply (proj2 (proj2 (cache_first_two_calls Scenario.app_origin Scenario.missing
                    Scenario.missing (Scenario.get "/gallery/van.jpg" "no-cors")
                    CACHE_NAME Scenario.installed))).
    + vm_compute. reflexivity.
    + intros response [= <-]. simpl. lia.
Defined.

(** C8, the counterexample: an image that is not in the bucket, on a
    network that answers it with a 404. Both calls resolve to the 404,
    and the second call goes to the network again. *)
Lemma cache_first_refetches_after_404 :
  let request := Scenario.get "/gallery/van.jpg" "no-cors" in
  let first := handleCacheFirst Scenario.app_origin Scenario.missing request
                 CACHE_NAME Scenario.installed in
  let second := handleCacheFirst Scenario.app_origin Scenario.missing request
                  CACHE_NAME first.2 in
  classify (request_url request) = CACHE_STRATEGY.CACHE_FIRST ∧
  first.1 = Fulfilled (JResponse (mkResponse 404 "text/plain" "Not Found")) ∧
  second.1 = first.1 ∧
  fetched second.2 = url request :: fetched first.2 ∧
  fetched second.2 ≠ fetched first.2.
Proof. vm_compute. repeat split; try reflexivity. discriminate. Qed.

(** ** A network that does not answer *)

(** X7. The handlers have no timeout. While the fetch never settles,
    [handleNetworkFirst] stays pending even when the bucket holds the
    request; [handleCacheFirst] and [handleStaleWhileRevalidate] answer
    from the bucket on a hit and stay pending on a miss. *)
Theorem hanging_network_blocks (self_origin : string) (net : Network)
    (request : Request) (cache : string) (w : World) :
  net (url request) = Pending →
  (handleNetworkFirst self_origin net request cache w).1 = Pending ∧
  (handleCacheFirst self_origin net request cache w).1 =
    match lookup_bucket cache (url request) w with
    | Some r => Fulfilled (JResponse r)
    | None => Pending
    end ∧
  (handleStaleWhileRevalidate self_origin net request cache w).1 =
    match lookup_bucket cache (url request) w with
    | Some r => Fulfilled (JResponse r)
    | None => Pending
    end.
Proof.
  intros Hnet.
  rewrite handleCacheFirst_run, handleNetworkFirst_run, handleStaleWhileRevalidate_run.
  cbv zeta. rewrite Hnet.
  by destruct (lookup_bucket cache (url request) w).
Qed.

Lemma hanging_network_blocks_witness :
  let request := Scenario.get "/about.html" "navigate" in
  let cached := mkResponse 200 "text/plain" "https://example.com/about.html" in
  (handleNetworkFirst Scenario.app_origin Scenario.hanging request CACHE_NAME
     Scenario.installed).1 = Pending ∧
  (handleCacheFirst Scenario.app_origin Scenario.hanging request CACHE_NAME
     Scenario.installed).1 =
    match lookup_bucket CACHE_NAME (url request) Scenario.installed with
    | Some r => Fulfilled (JResponse r)
    | None => Pending
    end ∧
  (handleStaleWhileRevalidate Scenario.app_origin Scenario.hanging request CACHE_NAME
     Scenario.installed).1 =
    match lookup_bucket CACHE_NAME (url request) Scenario.installed with
    | Some r => Fulfilled (JResponse r)
    | None => Pending
    end.
Proof.
  apply (hanging_network_blocks Scenario.app_origin Scenario.hanging
           (Scenario.get "/about.html" "navigate") CACHE_NAME Scenario.installed).
  reflexivity.
Defined.

(** ** Offline *)

(** X8. With the network down and nothing cached for the request, a
    request that is not a navigation gets the synthesized 408
    [Network error] response from [handleCacheFirst] and from
    [handleNetworkFirst]. *)
Theorem offline_subresource_gets_408 (self_origin : string) (net : Network)
    (request : Request) (cache : string) (w : World) (reason : string) :
  lookup_bucket cache (url request) w = None →
  net (url request) = Rejected reason →
  mode request ≠ "navigate" →
  (handleCacheFirst self_origin net request cache w).1 =
    Fulfilled (JResponse (mkResponse 408 "text/plain" "Network error")) ∧
  (handleNetworkFirst self_origin net request cache w).1 =
    Fulfilled (JResponse (mkResponse 408 "text/plain" "Network error")).
Proof.
  intros Hmiss Hnet Hmode.
  rewrite handleCacheFirst_run, handleNetworkFirst_run, Hmiss, Hnet.
  by rewrite (offline_fallback_subresource _ _ _ _ Hmode).
Qed.

Lemma offline_subresource_gets_408_witness :
  let request := Scenario.get "/gallery/van.jpg" "no-cors" in
  (handleCacheFirst Scenario.app_origin Scenario.offline request CACHE_NAME
     Scenario.installed).1 =
    Fulfilled (JResponse (mkResponse 408 "text/plain" "Network error")) ∧
  (handleNetworkFirst Scenario.app_origin Scenario.offline request CACHE_NAME
     Scenario.installed).1 =
    Fulfilled (JResponse (mkResponse 408 "text/plain" "Network error")).
Proof.
  apply (offline_subresource_gets_408 Scenario.app_origin Scenario.offline
           (Scenario.get "/gallery/van.jpg" "no-cors") CACHE_NAME Scenario.installed
           "TypeError: Failed to fetch").
  - vm_compute. reflexivity.
  - reflexivity.
  - vm_compute. discriminate.
Defined.

(** X9. With the network down and nothing cached for the request, a
    navigation gets the offline page from [handleCacheFirst] and from
    [handleNetworkFirst] whenever the bucket holds [/offline.html]. *)
Theorem offline_navigation_gets_offline_page (self_origin : string) (net : Network)
    (request : Request) (cache : string) (w : World) (reason : string)
    (page : Response) :
  lookup_bucket cache (url request) w = None →
  net (url request) = Rejected reason →
  mode request = "navigate" →
  lookup_bucket cache (resolve self_origin OFFLINE_PAGE) w = Some page →
  (handleCacheFirst self_origin net request cache w).1 = Fulfilled (JResponse page) ∧
  (handleNetworkFirst self_origin net request cache w).1 = Fulfilled (JResponse page).
Proof.
  intros Hmiss Hnet Hmode Hpage.
  rewrite handleCacheFirst_run, handleNetworkFirst_run, Hmiss, Hnet.
  rewrite (offline_fallback_navigate _ _ _ _ Hmode).
  rewrite lookup_bucket_add_fetched, Hpage. done.
Qed.

Lemma offline_navigation_gets_offline_page_witness :
  let w := (handleNetworkFirst Scenario.app_origin Scenario.online
              (Scenario.get "/offline.html" "navigate") CACHE_NAME
              Scenario.installed).2 in
  let request := Scenario.get "/contact.html" "navigate" in
  let page := mkResponse 200 "text/plain" "https://example.com/offline.html" in
  (handleCacheFirst Scenario.app_origin Scenario.offline request CACHE_NAME w).1
    = Fulfilled (JResponse page) ∧
  (handleNetworkFirst Scenario.app_origin Scenario.offline request CACHE_NAME w).1
    = Fulfilled (JResponse page).
Proof.
  apply (offline_navigation_gets_offline_page Scenario.app_origin Scenario.offline
           (Scenario.get "/contact.html" "navigate") CACHE_NAME
           (handleNetworkFirst Scenario.app_origin Scenario.online
              (Scenario.get "/offline.html" "navigate") CACHE_NAME
              Scenario.installed).2
           "TypeError: Failed to fetch").
  - vm_compute. reflexivity.
  - reflexivity.
  - reflexivity.
  - vm_compute. reflexivity.
Defined.

(** ** [handleRequest] and the current bucket *)

Lemma caches_open_lookup (bucket name key : string) (w : World) :
  lookup_bucket name key (caches_open bucket w).2 = lookup_bucket name key w.
Proof.
  unfold caches_open, lookup_bucket. simpl.
  destruct (caches w !! bucket) eqn:E; [done|]. simpl.
  destruct (decide (bucket = name)) as [->|Hne].
  - by rewrite lookup_insert_eq, E.
  - by rewrite lookup_insert_ne.
Qed.

Lemma caches_open_dom (bucket : string) (w : World) :
  dom (caches (caches_open bucket w).2) = {[ bucket ]} ∪ dom (caches w).
Proof.
  unfold caches_open. simpl.
  destruct (caches w !! bucket) eqn:E; simpl.
  - assert (Hin : bucket ∈ dom (caches w)) by (apply elem_of_dom; eauto).
    apply set_eq. intros x. rewrite elem_of_union, elem_of_singleton.
    split; [by right|]. intros [->|Hx]; done.
  - by rewrite dom_insert_L.
Qed.

Lemma caches_open_fetched (bucket : string) (w : World) :
  fetched (caches_open bucket w).2 = fetched w.
Proof. unfold caches_open. simpl. by destruct (caches w !! bucket). Qed.

Lemma handleRequest_hit_offline (self_origin : string) (net : Network)
    (request : Request) (w : World) (r : Response) (reason strategy : string) :
  lookup_bucket CACHE_NAME (url request) w = Some r →
  net (url request) = Rejected reason →
  (handleRequest self_origin net request strategy w).1 = Fulfilled (JResponse r).
Proof.
  intros Hhit Hnet. rewrite handleRequest_run.
  pose proof (caches_open_lookup CACHE_NAME CACHE_NAME (url request) w) as Hopen.
  rewrite Hhit in Hopen.
  destruct (String.eqb strategy CACHE_STRATEGY.CACHE_FIRST);
    [|destruct (String.eqb strategy CACHE_STRATEGY.NETWORK_FIRST)];
    rewrite ?handleCacheFirst_run, ?handleNetworkFirst_run,
      ?handleStaleWhileRevalidate_run;
    cbv zeta; rewrite Hopen, ?Hnet; done.
Qed.

(** X10. Anything the current bucket holds is served when the network is
    down, whatever the class of the request: for a GET whose URL begins
    with the worker's origin and has an entry in the current bucket, the
    fetch listener responds with that entry. *)
Theorem cached_entry_served_offline (self_origin : string) (net : Network)
    (request : Request) (w : World) (r : Response) (reason : string) :
  method request = "GET" →
  startsWith (url request) self_origin = true →
  lookup_bucket CACHE_NAME (url request) w = Some r →
  net (url request) = Rejected reason →
  fst <$> fetch_event self_origin net request w = Some (Fulfilled (JResponse r)).
Proof.
  intros Hmethod Hprefix Hhit Hnet. unfold fetch_event.
  rewrite (onFetch_dispatch _ _ _ Hmethod Hprefix). simpl. f_equal.
  by apply (handleRequest_hit_offline _ _ _ _ _ reason).
Qed.

Lemma cached_entry_served_offline_witness :
  fst <$> fetch_event Scenario.app_origin Scenario.offline
            (Scenario.get "/about.html" "navigate") Scenario.installed
    = Some (Fulfilled (JResponse
              (mkResponse 200 "text/plain" "https://example.com/about.html"))).
Proof.
  apply (cached_entry_served_offline Scenario.app_origin Scenario.offline
           (Scenario.get "/about.html" "navigate") Scenario.installed
           (mkResponse 200 "text/plain" "https://example.com/about.html")
           "TypeError: Failed to fetch").
  - reflexivity.
  - vm_compute. reflexivity.
  - vm_compute. reflexivity.
  - reflexivity.
Defined.

Lemma offline_fallback_result (self_origin : string) (request : Request)
    (cache : string) (w : World) :
  (offline_fallback self_origin request cache w).1 =
    Fulfilled
      (if String.eqb (mode request) "navigate" then
         match lookup_bucket cache (resolve self_origin OFFLINE_PAGE) w with
         | Some r => JResponse r
         | None => JUndefined
         end
       else JResponse (mkResponse 408 "text/plain" "Network error")).
Proof.
  destruct (String.eqb_spec (mode request) "navigate") as [Hnav|Hnav].
  - by rewrite (offline_fallback_navigate _ _ _ _ Hnav).
  - by rewrite (offline_fallback_subresource _ _ _ _ Hnav).
Qed.

(** What [handleRequest] resolves to depends on the world only through
    the contents of the current bucket. *)
Lemma handleRequest_result_bucket (self_origin : string) (net : Network)
    (request : Request) (strategy : string) (w1 w2 : World) :
  (∀ key, lookup_bucket CACHE_NAME key w1 = lookup_bucket CACHE_NAME key w2) →
  (handleRequest self_origin net request strategy w1).1
    = (handleRequest self_origin net request strategy w2).1.
Proof.
  intros Hsame. rewrite !handleRequest_run.
  assert (Hopen : ∀ key,
            lookup_bucket CACHE_NAME key (caches_open CACHE_NAME w1).2
            = lookup_bucket CACHE_NAME key (caches_open CACHE_NAME w2).2).
  { intros key. by rewrite !caches_open_lookup. }
  set (v1 := (caches_open CACHE_NAME w1).2) in *.
  set (v2 := (caches_open CACHE_NAME w2).2) in *.
  destruct (String.eqb strategy CACHE_STRATEGY.CACHE_FIRST);
    [|destruct (String.eqb strategy CACHE_STRATEGY.NETWORK_FIRST)];
    rewrite ?handleCacheFirst_run, ?handleNetworkFirst_run,
      ?handleStaleWhileRevalidate_run;
    cbv zeta; rewrite (Hopen (url request));
    destruct (lookup_bucket CACHE_NAME (url request) v2);
    destruct (net (url request)); cbn [fst]; try done;
    rewrite !offline_fallback_result, !lookup_bucket_add_fetched, Hopen; done.
Qed.

(** X11. A URL answered once with a 200 is available offline once the
    call has settled. After [handleRequest] met a fetch that resolved
    with status 200, a second [handleRequest] for the same request with
    the network down, started when everything the first call began has
    finished (its un-awaited [cache.put], and for stale-while-revalidate
    the background fetch), resolves to a stored response for every
    strategy value: the fresh response, except under [CACHE_FIRST] with
    an entry already in the bucket, where it is that entry. A second call
    that starts before the put has landed finds the bucket as it was and
    resolves as if the first call had not been made. *)
Theorem answered_once_available_offline (self_origin : string) (net1 net2 : Network)
    (request : Request) (w : World) (response : Response) (reason strategy : string) :
  net1 (url request) = Fulfilled response →
  status response = 200 →
  net2 (url request) = Rejected reason →
  let first := handleRequest self_origin net1 request strategy w in
  (handleRequest self_origin net2 request strategy first.2).1 =
    Fulfilled (JResponse
      (if String.eqb strategy CACHE_STRATEGY.CACHE_FIRST
       then default response (lookup_bucket CACHE_NAME (url request) w)
       else response)) ∧
  (handleRequest self_origin net2 request strategy (before_puts w first.2)).1 =
    (handleRequest self_origin net2 request strategy w).1.
Proof.
  intros Hnet1 H200 Hnet2. cbv zeta. split.
  - apply (handleRequest_hit_offline _ _ _ _ _ reason); [|done].
    rewrite handleRequest_run.
    pose proof (caches_open_lookup CACHE_NAME CACHE_NAME (url request) w) as Hopen.
    set (w1 := (caches_open CACHE_NAME w).2) in *.
    assert (Hstored : lookup_bucket CACHE_NAME (url request)
                        (after_fetch request CACHE_NAME response w1) = Some response).
    { rewrite lookup_after_fetch. by rewrite decide_True. }
    destruct (String.eqb strategy CACHE_STRATEGY.CACHE_FIRST);
      [|destruct (String.eqb strategy CACHE_STRATEGY.NETWORK_FIRST)].
    + rewrite handleCacheFirst_run, Hnet1, Hopen.
      destruct (lookup_bucket CACHE_NAME (url request) w) as [r|] eqn:E;
        cbn [fst snd].
      * exact Hopen.
      * exact Hstored.
    + rewrite handleNetworkFirst_run, Hnet1. exact Hstored.
    + rewrite handleStaleWhileRevalidate_run, Hnet1. cbv zeta.
      destruct (lookup_bucket CACHE_NAME (url request) w1); exact Hstored.
  - apply handleRequest_result_bucket. intros key. apply lookup_before_puts.
Qed.

Lemma answered_once_available_offline_witness :
  let request := Scenario.get "/contact.html" "navigate" in
  let first := handleRequest Scenario.app_origin Scenario.online request
                 CACHE_STRATEGY.NETWORK_FIRST Scenario.installed in
  (handleRequest Scenario.app_origin Scenario.offline request
     CACHE_STRATEGY.NETWORK_FIRST first.2).1 =
    Fulfilled (JResponse
      (mkResponse 200 "text/plain" "https://example.com/contact.html")) ∧
  (handleRequest Scenario.app_origin Scenario.offline request
     CACHE_STRATEGY.NETWORK_FIRST (before_puts Scenario.installed first.2)).1 =
    (handleRequest Scenario.app_origin Scenario.offline request
       CACHE_STRATEGY.NETWORK_FIRST Scenario.installed).1.
Proof.
  apply (answered_once_available_offline Scenario.app_origin Scenario.online
           Scenario.offline (Scenario.get "/contact.html" "navigate")
           Scenario.installed
           (mkResponse 200 "text/plain" "https://example.com/contact.html")
           "TypeError: Failed to fetch" CACHE_STRATEGY.NETWORK_FIRST);
    reflexivity.
Defined.

(** X12. Answering a request never removes a bucket and creates none but
    the current one: after [handleRequest] the bucket names are those
    from before together with [CACHE_NAME]. *)
Theorem handleRequest_bucket_names (self_origin : string) (net : Network)
    (request : Request) (strategy : string) (w : World) :
  dom (caches (handleRequest self_origin net request strategy w).2)
    = {[ CACHE_NAME ]} ∪ dom (caches w).
Proof.
  rewrite handleRequest_run.
  pose proof (caches_open_dom CACHE_NAME w) as Hopen.
  set (w1 := (caches_open CACHE_NAME w).2) in *.
  assert (Hfetch : ∀ response,
            dom (caches (after_fetch request CACHE_NAME response w1))
            = {[ CACHE_NAME ]} ∪ dom (caches w)).
  { intros response. rewrite caches_after_fetch.
    destruct (status response =? 200); [|done].
    rewrite dom_insert_L, Hopen. apply set_eq. intros x.
    rewrite !elem_of_union, !elem_of_singleton. tauto. }
  destruct (offline_fallback_run self_origin request CACHE_NAME
              (add_fetched (url request) w1)) as [v Hv].
  destruct (String.eqb strategy CACHE_STRATEGY.CACHE_FIRST);
    [|destruct (String.eqb strategy CACHE_STRATEGY.NETWORK_FIRST)];
    rewrite ?handleCacheFirst_run, ?handleNetworkFirst_run,
      ?handleStaleWhileRevalidate_run;
    cbv zeta; rewrite ?Hv;
    destruct (lookup_bucket CACHE_NAME (url request) w1);
    destruct (net (url request)); cbn [fst snd]; rewrite ?Hfetch; done.
Qed.

(** ** Requests for the worker's own origin *)

Lemma chars_app (a b : string) : chars (a +:+ b) = chars a ++ chars b.
Proof.
  unfold chars. induction a as [|c a IH]; [done|].
  change (String c a +:+ b) with (String c (a +:+ b)).
  cbn [list_ascii_of_string]. by rewrite IH.
Qed.

Lemma href_startsWith_origin (u : URL) : startsWith (href u) (origin u) = true.
Proof.
  unfold startsWith, href. apply bool_decide_eq_true.
  rewrite chars_app. by apply prefix_app_r.
Qed.

(** X14. Every GET for a URL of the worker's own origin is answered, by
    [handleRequest] at the strategy of its path. *)
Theorem same_origin_GET_is_answered (net : Network) (request : Request) :
  method request = "GET" →
  onFetch (origin (request_url request)) net request
    = Some (handleRequest (origin (request_url request)) net request
              (classify (request_url request))).
Proof.
  intros Hmethod. apply onFetch_dispatch; [done|].
  apply href_startsWith_origin.
Qed.

Lemma same_origin_GET_is_answered_witness :
  onFetch Scenario.app_origin Scenario.online (Scenario.get "/pricing" "navigate")
    = Some (handleRequest Scenario.app_origin Scenario.online
              (Scenario.get "/pricing" "navigate")
              CACHE_STRATEGY.STALE_WHILE_REVALIDATE).
Proof.
  apply (same_origin_GET_is_answered Scenario.online
           (Scenario.get "/pricing" "navigate")).
  reflexivity.
Defined.

(** ** install, in full *)

Lemma all_settled_fulfilled {A} (ps : list (promise A)) (rs : list A) :
  all_settled ps = Fulfilled rs ↔ ps = Fulfilled <$> rs.
Proof.
  revert rs. induction ps as [|p ps IH]; intros rs; cbn [all_settled].
  - split; [by intros [= <-]|]. by destruct rs.
  - destruct p as [a|e|]; destruct (all_settled ps) as [l|e'|] eqn:Hrest.
    + split.
      * intros [= <-]. cbn. f_equal. by apply IH.
      * destruct rs as [|r rs]; [done|]. intros [= <- Hps].
        apply IH in Hps. by injection Hps as <-.
    + split; [done|]. destruct rs as [|r rs]; [done|]. intros [= _ Hps].
      by apply IH in Hps.
    + split; [done|]. destruct rs as [|r rs]; [done|]. intros [= _ Hps].
      by apply IH in Hps.
    + split; [done|]. by destruct rs.
    + split; [done|]. by destruct rs.
    + split; [done|]. by destruct rs.
    + split; [done|]. by destruct rs.
    + split; [done|]. by destruct rs.
    + split; [done|]. by destruct rs.
Qed.

Lemma precache_request_run (self_origin : string) (net : Network)
    (path : string) (w : World) :
  (r <- fetch net (resolve self_origin path) ;;
   if storable r then ret (resolve self_origin path, r) else throw "TypeError")%async w =
  (precache_outcome self_origin net path, add_fetched (resolve self_origin path) w).
Proof.
  unfold bind, fetch, precache_outcome.
  destruct (net (resolve self_origin path)) as [r|e|]; [|done|done].
  by destruct (storable r).
Qed.

(** The requests of the batch are all issued, one per path, and each
    settles as [precache_outcome] says. *)
Lemma precache_requests_run (self_origin : string) (net : Network)
    (paths : list string) (w : World) :
  spawn_each
    (map (fun path =>
            r <- fetch net (resolve self_origin path) ;;
            if storable r then ret (resolve self_origin path, r)
            else throw "TypeError")%async
         paths) w =
  (Fulfilled (precache_outcome self_origin net <$> paths),
   foldl (λ w0 path, add_fetched (resolve self_origin path) w0) w paths).
Proof.
  revert w. induction paths as [|path paths IH]; intros w; [done|].
  cbn [map spawn_each fmap list_fmap foldl].
  unfold bind at 1. unfold spawn at 1. rewrite precache_request_run.
  unfold bind at 1. rewrite IH. reflexivity.
Qed.

Lemma precache_requests_world (self_origin : string) (paths : list string) (w : World) :
  let w' := foldl (λ w0 path, add_fetched (resolve self_origin path) w0) w paths in
  caches w' = caches w ∧ skipWaitingCalled w' = skipWaitingCalled w.
Proof.
  revert w. induction paths as [|path paths IH]; intros w; [done|].
  cbn [foldl]. by destruct (IH (add_fetched (resolve self_origin path) w)) as [-> ->].
Qed.

Lemma cache_addAll_run (self_origin : string) (net : Network) (cache : string)
    (paths : list string) (w : World) :
  let w' := foldl (λ w0 path, add_fetched (resolve self_origin path) w0) w paths in
  cache_addAll self_origin net cache paths w =
  match all_settled (precache_outcome self_origin net <$> paths) with
  | Fulfilled rs =>
      (Fulfilled tt,
       set_caches (λ cs, <[cache := put_batch (default ∅ (cs !! cache)) rs]> cs) w')
  | Rejected e => (Rejected e, w')
  | Pending => (Pending, w')
  end.
Proof.
  cbv zeta. unfold cache_addAll, Promise_all. unfold bind at 1. unfold bind at 1.
  rewrite precache_requests_run. unfold await.
  by destruct (all_settled (precache_outcome self_origin net <$> paths)).
Qed.

(** When every path is served with a response [cache.addAll] accepts the
    batch is the list of the responses, in order. *)
Lemma precache_all_ok (self_origin : string) (net : Network) (paths : list string) :
  (∀ path, path ∈ paths →
     ∃ r, net (resolve self_origin path) = Fulfilled r ∧ storable r = true) →
  ∃ rs, all_settled (precache_outcome self_origin net <$> paths) = Fulfilled rs ∧
        rs.*1 = resolve self_origin <$> paths ∧
        Forall (λ kr, net kr.1 = Fulfilled kr.2) rs.
Proof.
  induction paths as [|path paths IH]; intros Hok.
  - exists []. by repeat split.
  - destruct IH as (rs & Hrs & Hkeys & Hvals).
    { intros p Hp. apply Hok. by right. }
    destruct (Hok path) as (r & Hnet & Hr); [by left|].
    exists ((resolve self_origin path, r) :: rs). split; [|split].
    + apply all_settled_fulfilled. apply all_settled_fulfilled in Hrs.
      cbn [fmap list_fmap]. rewrite <- Hrs. f_equal.
      unfold precache_outcome. by rewrite Hnet, Hr.
    + cbn. by rewrite Hkeys.
    + by constructor.
Qed.

Lemma put_batch_lookup (net : Network) (rs : list (string * Response))
    (bucket : gmap string Response) (key : string) (r : Response) :
  Forall (λ kr, net kr.1 = Fulfilled kr.2) rs →
  net key = Fulfilled r →
  key ∈ rs.*1 ∨ bucket !! key = Some r →
  put_batch bucket rs !! key = Some r.
Proof.
  unfold put_batch. intros Hvals Hnet. revert bucket.
  induction Hvals as [|[k v] rs Hkv _ IH]; intros bucket Hin; cbn [foldl].
  - destruct Hin as [Hin|Hin]; [inversion Hin|done].
  - apply IH. simpl in *.
    destruct Hin as [Hin|Hin].
    + apply elem_of_cons in Hin as [->|Hin]; [|by left].
      right. rewrite lookup_insert_eq. congruence.
    + destruct (decide (k = key)) as [->|Hne].
      * right. rewrite lookup_insert_eq. congruence.
      * right. by rewrite lookup_insert_ne.
Qed.

Lemma onInstall_run (self_origin : string) (net : Network) (w : World) :
  let w1 := add_console "Service Worker: Caching essential files"
              (caches_open CACHE_NAME
                 (add_console "Service Worker: Installing..." w)).2 in
  onInstall self_origin net w =
  match cache_addAll self_origin net CACHE_NAME CACHE_FILES w1 with
  | (Fulfilled _, w2) =>
      (Fulfilled tt,
       set_skipWaiting (add_console "Service Worker: Installation complete" w2))
  | (Rejected _, w2) =>
      (Fulfilled tt, add_console "Service Worker: Installation failed" w2)
  | (Pending, w2) => (Pending, w2)
  end.
Proof.
  cbv zeta. unfold onInstall, try_catch, bind, console_log, caches_open, skipWaiting.
  cbn [fst snd].
  match goal with
  | |- context [cache_addAll ?o ?n ?c ?p ?w0] =>
      destruct (cache_addAll o n c p w0) as [[u|e|] w2]
  end; reflexivity.
Qed.

Lemma activate_keeps_current_entries (w : World) (key : string) :
  lookup_bucket CACHE_NAME key (onActivate w).2 = lookup_bucket CACHE_NAME key w.
Proof.
  unfold lookup_bucket. destruct (onActivate_run w) as [_ ->].
  rewrite purge_every_name.
  destruct (caches w !! CACHE_NAME) as [bucket|].
  - by rewrite lookup_singleton_eq.
  - by rewrite lookup_empty.
Qed.

(** X15. Precache completeness. When every URL of the manifest is served
    with a response that [cache.addAll] accepts (an ok status, 200 to
    299, other than 206), install completes, [skipWaiting] is called, and
    every URL of the manifest is retrievable from the current bucket with
    the response the network gave for it, right after install and still
    after the activation that follows. *)
Theorem install_precaches_manifest (self_origin : string) (net : Network) (w : World) :
  (∀ path, path ∈ CACHE_FILES →
     ∃ r, net (resolve self_origin path) = Fulfilled r ∧ storable r = true) →
  let installed := onInstall self_origin net w in
  installed.1 = Fulfilled tt ∧
  skipWaitingCalled installed.2 = true ∧
  (∀ path r, path ∈ CACHE_FILES → net (resolve self_origin path) = Fulfilled r →
     lookup_bucket CACHE_NAME (resolve self_origin path) installed.2 = Some r ∧
     lookup_bucket CACHE_NAME (resolve self_origin path) (onActivate installed.2).2
       = Some r).
Proof.
  intros Hok. cbv zeta.
  destruct (precache_all_ok self_origin net CACHE_FILES Hok) as (rs & Hrs & Hkeys & Hvals).
  rewrite onInstall_run. cbv zeta. rewrite cache_addAll_run. cbv zeta. rewrite Hrs.
  cbn [fst snd]. split; [done|]. split; [done|].
  intros path r Hpath Hnet.
  assert (Hstored : ∀ w0,
            lookup_bucket CACHE_NAME (resolve self_origin path)
              (set_skipWaiting
                 (add_console "Service Worker: Installation complete"
                    (set_caches
                       (λ cs, <[CACHE_NAME := put_batch (default ∅ (cs !! CACHE_NAME)) rs]> cs)
                       w0))) = Some r).
  { intros w0. unfold lookup_bucket, set_skipWaiting, add_console, set_caches.
    cbn [caches]. rewrite lookup_insert_eq. cbn [mbind option_bind].
    apply (put_batch_lookup net); [done|done|]. left.
    rewrite Hkeys. by apply list_elem_of_fmap_2. }
  split; [apply Hstored|].
  rewrite activate_keeps_current_entries. apply Hstored.
Qed.

Lemma install_precaches_manifest_witness :
  let installed := onInstall Scenario.app_origin Scenario.online Scenario.fresh in
  installed.1 = Fulfilled tt ∧
  skipWaitingCalled installed.2 = true ∧
  (∀ path r, path ∈ CACHE_FILES →
     Scenario.online (resolve Scenario.app_origin path) = Fulfilled r →
     lookup_bucket CACHE_NAME (resolve Scenario.app_origin path) installed.2 = Some r ∧
     lookup_bucket CACHE_NAME (resolve Scenario.app_origin path)
       (onActivate installed.2).2 = Some r).
Proof.
  apply (install_precaches_manifest Scenario.app_origin Scenario.online Scenario.fresh).
  intros path _. eexists. split; reflexivity.
Defined.

(** X16. The precache is all or nothing. When some URL of the manifest
    is not served with an ok status (its fetch rejects, hangs or resolves
    with another status), install stores no entry at all, in any bucket,
    and does not call [skipWaiting]. *)
Theorem install_failure_stores_nothing (self_origin : string) (net : Network)
    (w : World) (path : string) :
  path ∈ CACHE_FILES →
  (∀ r, net (resolve self_origin path) = Fulfilled r → ok r = false) →
  (∀ name key, lookup_bucket name key (onInstall self_origin net w).2
               = lookup_bucket name key w) ∧
  skipWaitingCalled (onInstall self_origin net w).2 = skipWaitingCalled w.
Proof.
  intros Hpath Hbad.
  assert (Hnot : ∀ rs, all_settled (precache_outcome self_origin net <$> CACHE_FILES)
                       ≠ Fulfilled rs).
  { intros rs Hrs. apply all_settled_fulfilled in Hrs.
    assert (Hin : precache_outcome self_origin net path
                  ∈ precache_outcome self_origin net <$> CACHE_FILES)
      by (by apply list_elem_of_fmap_2).
    rewrite Hrs in Hin. apply list_elem_of_fmap in Hin as (kr & Hkr & _).
    unfold precache_outcome in Hkr.
    destruct (net (resolve self_origin path)) as [r|e|]; [|done|done].
    unfold storable in Hkr. by rewrite (Hbad r eq_refl) in Hkr. }
  rewrite onInstall_run. cbv zeta. rewrite cache_addAll_run. cbv zeta.
  match goal with
  | |- context [foldl ?f ?w0 CACHE_FILES] =>
      pose proof (precache_requests_world self_origin CACHE_FILES w0) as Hworld;
      cbv zeta in Hworld; destruct Hworld as [Hcaches Hskip];
      set (w' := foldl f w0 CACHE_FILES) in *
  end.
  assert (Hlookup : ∀ name key, lookup_bucket name key w' = lookup_bucket name key w).
  { intros name key. unfold lookup_bucket at 1. rewrite Hcaches.
    apply (caches_open_lookup CACHE_NAME name key
             (add_console "Service Worker: Installing..." w)). }
  assert (Hsame : skipWaitingCalled w' = skipWaitingCalled w).
  { rewrite Hskip. unfold caches_open. cbn [snd].
    by destruct (caches (add_console "Service Worker: Installing..." w) !! CACHE_NAME). }
  destruct (all_settled (precache_outcome self_origin net <$> CACHE_FILES))
    as [rs|e|] eqn:Hall.
  - by destruct (Hnot rs).
  - split; [intros name key; apply Hlookup|exact Hsame].
  - split; [intros name key; apply Hlookup|exact Hsame].
Qed.

Lemma install_failure_stores_nothing_witness :
  (∀ name key,
     lookup_bucket name key
       (onInstall Scenario.app_origin Scenario.broken_deploy Scenario.fresh).2
     = lookup_bucket name key Scenario.fresh) ∧
  skipWaitingCalled
    (onInstall Scenario.app_origin Scenario.broken_deploy Scenario.fresh).2
    = skipWaitingCalled Scenario.fresh.
Proof.
  apply (install_failure_stores_nothing Scenario.app_origin Scenario.broken_deploy
           Scenario.fresh "/style.css").
  - unfold CACHE_FILES. do 9 right. left.
  - intros r [= <-]. reflexivity.
Defined.

(** ** activate, again *)

(** X17. Activation is idempotent on CacheStorage: a second activation
    right after the first finds nothing left to delete. *)
Theorem activate_idempotent (w : World) :
  caches (onActivate (onActivate w).2).2 = caches (onActivate w).2.
Proof.
  destruct (onActivate_run (onActivate w).2) as [_ ->].
  destruct (onActivate_run w) as [_ ->].
  rewrite !purge_every_name.
  destruct (caches w !! CACHE_NAME) as [bucket|].
  - by rewrite lookup_singleton_eq.
  - by rewrite lookup_empty.
Qed.

Lemma delete_if_old_keeps (F : list string) (S : bool) (name : string) :
  preserves (λ w, fetched w = F ∧ skipWaitingCalled w = S) (delete_if_old name).
Proof.
  intros w Hw. unfold delete_if_old.
  destruct (negb (String.eqb name CACHE_NAME)); [|done].
  run_async. unfold caches_delete. done.
Qed.

(** X18. For every storage, activation completes, claims the open pages
    with [clients.claim], issues no network request and does not call
    [skipWaiting]. *)
Theorem activate_claims_clients (w : World) :
  (onActivate w).1 = Fulfilled tt ∧
  clientsClaimed (onActivate w).2 = true ∧
  fetched (onActivate w).2 = fetched w ∧
  skipWaitingCalled (onActivate w).2 = skipWaitingCalled w.
Proof.
  destruct (purge_all_run (map_to_list (caches w)).*1
              (add_console "Service Worker: Activating..." w))
    as (vs & w' & Hpurge & _).
  assert (Hkeep : fetched w' = fetched w ∧ skipWaitingCalled w' = skipWaitingCalled w).
  { pose proof (preserves_Promise_all
                  (λ w0, fetched w0 = fetched w ∧ skipWaitingCalled w0 = skipWaitingCalled w)
                  (map delete_if_old (map_to_list (caches w)).*1)) as Hall.
    specialize (Hall ltac:(apply Forall_forall; intros m Hm;
                           apply list_elem_of_In, in_map_iff in Hm as (name & <- & _);
                           apply delete_if_old_keeps)
                     (add_console "Service Worker: Activating..." w)
                     ltac:(done)).
    by rewrite Hpurge in Hall. }
  assert (Heq : onActivate w =
            (Fulfilled tt,
             set_claimed (add_console "Service Worker: Activation complete" w'))).
  { unfold onActivate. unfold bind at 1. unfold console_log at 1.
    unfold bind at 1. unfold caches_keys at 1. unfold bind at 1.
    cbn [caches add_console]. cbn [caches add_console] in Hpurge.
    rewrite Hpurge. reflexivity. }
  rewrite Heq. cbn [fst snd]. destruct Hkeep as [Hf Hs]. done.
Qed.

(** ** Notifications *)

Lemma string_or_nonempty (v : option string) (d : string) :
  d ≠ "" → string_or v d ≠ "".
Proof.
  intros Hd. unfold string_or. destruct v as [s|]; [|done].
  by destruct (String.eqb_spec s "").
Qed.

Lemma string_or_twice (v : option string) (d : string) :
  d ≠ "" → string_or (Some (string_or v d)) d = string_or v d.
Proof.
  intros Hd. unfold string_or at 1.
  pose proof (string_or_nonempty v d Hd) as Hne.
  by destruct (String.eqb_spec (string_or v d) "").
Qed.

(** X19. A click on a notification never opens an empty URL, and a click
    on the notification shown for a push message opens the message's
    [url] when that is a non-empty string and [/] otherwise; without data
    the push listener shows nothing. *)
Theorem notification_click_opens_pushed_url :
  (∀ notification, onNotificationClick notification ≠ "") ∧
  (∀ data,
     (λ shown, (shown.1, onNotificationClick shown.2)) <$> onPush (Some data) =
       Some (push_title data,
             match push_url data with
             | Some u => if String.eqb u "" then "/" else u
             | None => "/"
             end)) ∧
  onPush None = None.
Proof.
  split; [|split; [|done]].
  - intros notification. by apply string_or_nonempty.
  - intros data. cbn [onPush fmap option_fmap option_map fst snd].
    unfold onNotificationClick. cbn [data_url].
    by rewrite string_or_twice.
Qed.

(** ** Background sync *)

(** The sync listener only writes to the console. *)
Lemma sync_only_logs (tag : string) (h : Async unit) (w : World) :
  onSync tag = Some h →
  (h w).1 = Fulfilled tt ∧
  caches (h w).2 = caches w ∧ fetched (h w).2 = fetched w.
Proof.
  unfold onSync. destruct (String.eqb tag "contact-form-sync"); [|done].
  by intros [= <-].
Qed.
